(** * update_version.py: version derivation and artifact update

    A shallow embedding of the build helper [update_version.py] and the
    properties of its version derivation, its version-file update and its
    workspace-label update.

    Conventions of the embedding.
    - A Python [str] is a list of Unicode code points, a [bytes] object a list
      of 8-bit values; Python integers are unbounded ([Z]).
    - A call that may raise returns a [result]; the exceptions are the classes
      the two [except] clauses of the program tell apart.
    - The outside world is explicit: the answers of the three read-only git
      queries and the I/O faults are an [env]; the files, the git index and the
      log are a [world] that the two updaters thread through.
    - A file holds text: what the text layer was given to write, and gives
      back on reading.  On a POSIX system these are the bytes of the file, in
      the encoding of the locale and with line ends as written.
    - What the interpreter's libraries decide and the program does not (the
      Unicode character database beyond ASCII, the JSON codec) is a parameter. *)

From Stdlib Require Import List ZArith NArith Lia Bool String Ascii.
From Stdlib Require Import Permutation DecimalN DecimalPos.
Import ListNotations.


(* ================================================================== *)
(** * Text, bytes and exceptions *)
(* ================================================================== *)

Definition byte := N.
Definition bytes := list byte.
Definition char := N.
Definition str := list char.

(** A source literal, as code points. *)
Definition lit (s : string) : str := map N_of_ascii (list_ascii_of_string s).

Fixpoint str_eqb (a b : str) : bool :=
  match a, b with
  | [], [] => true
  | x :: a', y :: b' => (x =? y)%N && str_eqb a' b'
  | _, _ => false
  end.

Definition LF : char := 10%N.

Inductive exn :=
| CalledProcessError (returncode : Z)
| FileNotFoundError
| PermissionError
| OSError
| UnicodeDecodeError
| UnicodeEncodeError
| ValueError
| JSONDecodeError
| KeyError (key : str)
| TypeError
| AttributeError
| KeyboardInterrupt.

(** [except subprocess.CalledProcessError] *)
Definition is_CalledProcessError (e : exn) : bool :=
  match e with CalledProcessError _ => true | _ => false end.

(** [except Exception]: every class above but [KeyboardInterrupt], which
    derives from [BaseException] only. *)
Definition is_Exception (e : exn) : bool :=
  match e with KeyboardInterrupt => false | _ => true end.

Inductive result (A : Type) :=
| Ok (a : A)
| Raise (e : exn).
Arguments Ok {A} a.
Arguments Raise {A} e.

Definition rbind {A B} (r : result A) (k : A -> result B) : result B :=
  match r with Ok a => k a | Raise e => Raise e end.

(** [try: body  except <class>: handler] on a computation without state. *)
Definition rcatch {A} (r : result A) (cls : exn -> bool) (h : result A) : result A :=
  match r with
  | Ok a => Ok a
  | Raise e => if cls e then h else Raise e
  end.

Declare Scope result_scope.
Delimit Scope result_scope with result.
Notation "x <- c ;; k" := (rbind c (fun x => k))
  (at level 61, c at next level, right associativity) : result_scope.

(* ================================================================== *)
(** * The interpreter's character classes *)
(* ================================================================== *)

(** The Unicode character database beyond ASCII, as far as the program's
    calls consult it: a code point is white space ([Py_UNICODE_ISSPACE]), a
    decimal digit with its value ([Py_UNICODE_TODECIMAL]), alphanumeric in
    another way ([Py_UNICODE_ISALPHA], [ISDIGIT] or [ISNUMERIC]), or none of
    these.  Below 128 the classes are the ASCII ones and are written out. *)
Inductive uclass :=
| USpace
| UDecimal (value : N)
| UAlnum
| UOther.

Record unicode_db := { uni_class : char -> uclass }.

Definition between (lo hi c : N) : bool := ((lo <=? c) && (c <=? hi))%N.

(** [Py_ISSPACE]: space, \t, \n, \v, \f, \r. *)
Definition ascii_space (c : N) : bool := between 9 13 c || (c =? 32)%N.

Definition ascii_digit (c : N) : option N :=
  if between 48 57 c then Some (c - 48)%N else None.

Definition ascii_alpha (c : N) : bool := between 65 90 c || between 97 122 c.

Definition is_some {A} (o : option A) : bool :=
  match o with Some _ => true | None => false end.

Section Unicode.
Variable U : unicode_db.

Definition uni_space (c : char) : bool :=
  match uni_class U c with USpace => true | _ => false end.

Definition uni_decimal (c : char) : option N :=
  match uni_class U c with UDecimal d => Some d | _ => None end.

Definition uni_alnum (c : char) : bool :=
  match uni_class U c with UDecimal _ | UAlnum => true | _ => false end.

(** [Py_UNICODE_TODECIMAL] *)
Definition todecimal (c : char) : option N :=
  if (c <? 128)%N then ascii_digit c else uni_decimal c.

(** [\d] of a [str] pattern: [Py_UNICODE_ISDECIMAL]. *)
Definition isdecimal (c : char) : bool := is_some (todecimal c).

(** [Py_UNICODE_ISALNUM]: alpha, decimal, digit or numeric. *)
Definition isalnum (c : char) : bool :=
  if (c <? 128)%N then ascii_alpha c || isdecimal c else uni_alnum c.

(** [\w] of a [str] pattern: alphanumeric or underscore. *)
Definition isword (c : char) : bool := isalnum c || (c =? 95)%N.

(** White space as [int()] sees it: code points below 127 are kept and
    tested with [Py_ISSPACE]; the others count when the database says so. *)
Definition int_space (c : char) : bool :=
  if (c <? 127)%N then ascii_space c else uni_space c.

Definition int_digit (c : char) : option N :=
  if (c <? 127)%N then ascii_digit c else uni_decimal c.
End Unicode.

(* ================================================================== *)
(** * Library functions the version derivation calls *)
(* ================================================================== *)

Fixpoint dropwhile {A} (p : A -> bool) (l : list A) : list A :=
  match l with
  | x :: l' => if p x then dropwhile p l' else l
  | [] => []
  end.

Fixpoint takewhile {A} (p : A -> bool) (l : list A) : list A :=
  match l with
  | x :: l' => if p x then x :: takewhile p l' else []
  | [] => []
  end.

(** [bytes.strip()]: ASCII white space off both ends. *)
Definition bytes_strip (b : bytes) : bytes :=
  rev (dropwhile ascii_space (rev (dropwhile ascii_space b))).

Definition cont (b : byte) : bool := between 0x80 0xBF b.

Definition ocons {A} (x : A) (o : option (list A)) : option (list A) :=
  match o with Some l => Some (x :: l) | None => None end.

(** [bytes.decode()]: strict UTF-8 (no overlong form, no surrogate, nothing
    above U+10FFFF); [None] stands for [UnicodeDecodeError]. *)
Fixpoint utf8_decode (b : bytes) : option str :=
  match b with
  | [] => Some []
  | b0 :: r0 =>
      if (b0 <? 0x80)%N then ocons b0 (utf8_decode r0)
      else if between 0xC2 0xDF b0 then
        match r0 with
        | b1 :: r1 =>
            if cont b1
            then ocons ((b0 - 0xC0) * 64 + (b1 - 0x80))%N (utf8_decode r1)
            else None
        | _ => None
        end
      else if between 0xE0 0xEF b0 then
        match r0 with
        | b1 :: b2 :: r2 =>
            let lo := if (b0 =? 0xE0)%N then 0xA0%N else 0x80%N in
            let hi := if (b0 =? 0xED)%N then 0x9F%N else 0xBF%N in
            if between lo hi b1 && cont b2
            then ocons ((b0 - 0xE0) * 4096 + (b1 - 0x80) * 64 + (b2 - 0x80))%N
                       (utf8_decode r2)
            else None
        | _ => None
        end
      else if between 0xF0 0xF4 b0 then
        match r0 with
        | b1 :: b2 :: b3 :: r3 =>
            let lo := if (b0 =? 0xF0)%N then 0x90%N else 0x80%N in
            let hi := if (b0 =? 0xF4)%N then 0x8F%N else 0xBF%N in
            if between lo hi b1 && cont b2 && cont b3
            then ocons ((b0 - 0xF0) * 262144 + (b1 - 0x80) * 4096
                        + (b2 - 0x80) * 64 + (b3 - 0x80))%N
                       (utf8_decode r3)
            else None
        | _ => None
        end
      else None
  end.

(** [check_output(...).strip().decode()] on the bytes a query printed. *)
Definition strip_decode (out : bytes) : result str :=
  match utf8_decode (bytes_strip out) with
  | Some s => Ok s
  | None => Raise UnicodeDecodeError
  end.

Section Int.
Variable U : unicode_db.

(** The digits of a base-10 literal, with single underscores between
    digits; [prev_us] says the previous character was an underscore. *)
Fixpoint int_digits (prev_us : bool) (acc : N) (s : str) : option (N * str) :=
  match s with
  | c :: s' =>
      match int_digit U c with
      | Some d => int_digits false (10 * acc + d)%N s'
      | None =>
          if (c =? 95)%N
          then (if prev_us then None else int_digits true acc s')
          else (if prev_us then None else Some (acc, s))
      end
  | [] => if prev_us then None else Some (acc, s)
  end.

(** [int(s)] for a [str]: white space, an optional sign, digits, white
    space; anything else is a [ValueError]. *)
Definition py_int (s : str) : result Z :=
  let s1 := dropwhile (int_space U) s in
  let '(neg, s2) :=
    match s1 with
    | c :: r => if (c =? 43)%N then (false, r)
                else if (c =? 45)%N then (true, r)
                else (false, s1)
    | [] => (false, s1)
    end in
  match s2 with
  | c :: _ =>
      if is_some (int_digit U c) then
        match int_digits false 0 s2 with
        | Some (n, rest) =>
            match dropwhile (int_space U) rest with
            | [] => Ok (if neg then (- Z.of_N n)%Z else Z.of_N n)
            | _ :: _ => Raise ValueError
            end
        | None => Raise ValueError
        end
      else Raise ValueError
  | [] => Raise ValueError
  end.

(** ** [re.findall(r'\b\d+\b', s)] *)

Definition oword (c : option char) : bool :=
  match c with Some x => isword U x | None => false end.

(** [\b] between the character before and the character after a position;
    the ends of the string count as non-word characters. *)
Definition word_boundary (prev next : option char) : bool :=
  xorb (oword prev) (oword next).

(** The greedy [\d+] after its first digit [prev], then [\b]: one more digit
    is tried first; when the rest fails the match backtracks to here. *)
Fixpoint digits_then_boundary (prev : char) (s : str) : option (str * str) :=
  let here :=
    if word_boundary (Some prev) (hd_error s) then Some ([], s) else None in
  match s with
  | c :: s' =>
      if isdecimal U c then
        match digits_then_boundary c s' with
        | Some (m, r) => Some (c :: m, r)
        | None => here
        end
      else here
  | [] => here
  end.

(** One attempt of the pattern at a position: the match and what follows. *)
Definition match_at (prev : option char) (s : str) : option (str * str) :=
  if word_boundary prev (hd_error s) then
    match s with
    | c :: s' =>
        if isdecimal U c then
          match digits_then_boundary c s' with
          | Some (m, r) => Some (c :: m, r)
          | None => None
          end
        else None
    | [] => None
    end
  else None.

(** The scan of [findall]: after a match it resumes where the match ended,
    after a failure one character further. *)
Fixpoint findall_from (fuel : nat) (prev : option char) (s : str) : list str :=
  match fuel with
  | O => []
  | S fuel' =>
      match match_at prev s with
      | Some (m, r) => m :: findall_from fuel' (Some (last m 0%N)) r
      | None =>
          match s with
          | c :: s' => findall_from fuel' (Some c) s'
          | [] => []
          end
      end
  end.

Definition re_findall (s : str) : list str :=
  findall_from (S (List.length s)) None s.

(** [[int(s) for s in ...]] *)
Fixpoint int_each (l : list str) : result (list Z) :=
  match l with
  | [] => Ok []
  | s :: l' =>
      (n <- py_int s ;;
       ns <- int_each l' ;;
       Ok (n :: ns))%result
  end.

(** [sum(numbers)] *)
Definition py_sum (numbers : list Z) : Z := fold_left Z.add numbers 0%Z.
End Int.

(** [str(n)] for an integer, as [format] prints it. *)
Fixpoint uint_digits (d : Decimal.uint) : str :=
  match d with
  | Decimal.Nil => []
  | Decimal.D0 d' => 48%N :: uint_digits d'
  | Decimal.D1 d' => 49%N :: uint_digits d'
  | Decimal.D2 d' => 50%N :: uint_digits d'
  | Decimal.D3 d' => 51%N :: uint_digits d'
  | Decimal.D4 d' => 52%N :: uint_digits d'
  | Decimal.D5 d' => 53%N :: uint_digits d'
  | Decimal.D6 d' => 54%N :: uint_digits d'
  | Decimal.D7 d' => 55%N :: uint_digits d'
  | Decimal.D8 d' => 56%N :: uint_digits d'
  | Decimal.D9 d' => 57%N :: uint_digits d'
  end.

Definition str_of_N (n : N) : str := uint_digits (N.to_uint n).

Definition str_of_int (n : Z) : str :=
  match n with
  | Z0 => lit "0"
  | Zpos p => str_of_N (Npos p)
  | Zneg p => 45%N :: str_of_N (Npos p)
  end.

(* ================================================================== *)
(** * JSON values, as [json.load] builds them *)
(* ================================================================== *)

(** A [dict] keeps its keys in insertion order, which [json.dump] follows, so
    it is an association list; a [float] is carried by its bit pattern, the
    program never looks inside one. *)
#[local] Unset Elimination Schemes.
Inductive json :=
| JNull
| JBool (b : bool)
| JInt (n : Z)
| JFloat (bits : N)
| JStr (s : str)
| JList (items : list json)
| JDict (fields : list (str * json)).
#[local] Set Elimination Schemes.

Definition pydict := list (str * json).

Fixpoint dict_get (d : pydict) (k : str) : option json :=
  match d with
  | [] => None
  | (k', v) :: d' => if str_eqb k' k then Some v else dict_get d' k
  end.

(** [d[k] = v]: an existing key keeps its place, a new one goes last. *)
Fixpoint dict_set (d : pydict) (k : str) (v : json) : pydict :=
  match d with
  | [] => [(k, v)]
  | (k', v') :: d' =>
      if str_eqb k' k then (k', v) :: d' else (k', v') :: dict_set d' k v
  end.

(** [obj[key]] with a [str] key. *)
Definition getitem (obj : json) (key : str) : result json :=
  match obj with
  | JDict d =>
      match dict_get d key with
      | Some v => Ok v
      | None => Raise (KeyError key)
      end
  | _ => Raise TypeError
  end.

(** [obj[key] = v] with a [str] key. *)
Definition setitem (obj : json) (key : str) (v : json) : result json :=
  match obj with
  | JDict d => Ok (JDict (dict_set d key v))
  | _ => Raise TypeError
  end.

(** What [for x in obj] goes through: the elements of a list, the keys of a
    dict, the characters of a string. *)
Definition py_iter (obj : json) : result (list json) :=
  match obj with
  | JList l => Ok l
  | JDict d => Ok (map (fun kv => JStr (fst kv)) d)
  | JStr s => Ok (map (fun c => JStr [c]) s)
  | _ => Raise TypeError
  end.

(** [obj.append(x)] *)
Definition py_append (obj : json) (x : json) : result json :=
  match obj with
  | JList l => Ok (JList (l ++ [x]))
  | _ => Raise AttributeError
  end.

(** [x == s] for a [str] [s]. *)
Definition eq_str (x : json) (s : str) : bool :=
  match x with
  | JStr t => str_eqb t s
  | _ => false
  end.

(** [json.load] and [json.dump(..., indent=2)], as functions between the text
    of a file and the value; [None] stands for [JSONDecodeError]. *)
Record json_codec := {
  json_loads : str -> option json;
  json_dumps : json -> str
}.

(* ================================================================== *)
(** * The outside world *)
(* ================================================================== *)

(** The answers of the read-only queries and the faults of the file
    operations and of the staging command.  A write fault is whatever
    interrupts the writing of a file after it was opened, an exception of the
    serialiser included; it says how much of the data reached the file. *)
Record env := {
  git_describe : result bytes;
  git_rev_list_count : str -> result bytes;
  git_log_numstat : result bytes;
  open_r_fault : str -> option exn;
  read_fault : str -> option exn;
  open_w_fault : str -> option exn;
  write_fault : str -> option (nat * exn);
  git_add_fault : option exn
}.

Inductive log_record :=
| LogInfo (msg : str)
| LogException (msg : str) (e : exn).

Record world := {
  files : str -> option str;
  git_index : list (str * str);
  git_add_calls : list str;
  log : list log_record
}.

Definition set_file (path : str) (data : str) (w : world) : world :=
  {| files := fun p => if str_eqb p path then Some data else files w p;
     git_index := git_index w;
     git_add_calls := git_add_calls w;
     log := log w |}.

Definition add_log (r : log_record) (w : world) : world :=
  {| files := files w;
     git_index := git_index w;
     git_add_calls := git_add_calls w;
     log := log w ++ [r] |}.

Definition add_call (path : str) (w : world) : world :=
  {| files := files w;
     git_index := git_index w;
     git_add_calls := git_add_calls w ++ [path];
     log := log w |}.

Definition stage (path : str) (data : str) (w : world) : world :=
  {| files := files w;
     git_index := (path, data) :: git_index w;
     git_add_calls := git_add_calls w;
     log := log w |}.

(** Computations that read the environment, change the world and may raise;
    what was changed before an exception stays changed. *)
Definition io (A : Type) := env -> world -> result A * world.

Definition ret {A} (a : A) : io A := fun _ w => (Ok a, w).

Definition bind {A B} (m : io A) (k : A -> io B) : io B :=
  fun E w =>
    match m E w with
    | (Ok a, w') => k a E w'
    | (Raise e, w') => (Raise e, w')
    end.

Definition try_except {A} (body : io A) (cls : exn -> bool) (h : exn -> io A) : io A :=
  fun E w =>
    match body E w with
    | (Ok a, w') => (Ok a, w')
    | (Raise e, w') => if cls e then h e E w' else (Raise e, w')
    end.

Definition query {A} (q : env -> result A) : io A := fun E w => (q E, w).

Definition pure {A} (r : result A) : io A := fun _ w => (r, w).

Declare Scope io_scope.
Delimit Scope io_scope with io.
Notation "x <- c ;; k" := (bind c (fun x => k))
  (at level 61, c at next level, right associativity) : io_scope.
Notation "c ;; k" := (bind c (fun _ => k))
  (at level 61, right associativity) : io_scope.

Definition logger_info (msg : str) : io unit :=
  fun _ w => (Ok tt, add_log (LogInfo msg) w).

Definition logger_exception (msg : str) (e : exn) : io unit :=
  fun _ w => (Ok tt, add_log (LogException msg e) w).

(** [open(path, "w")]: the file is created or truncated. *)
Definition open_w (path : str) : io unit :=
  fun E w =>
    match open_w_fault E path with
    | Some e => (Raise e, w)
    | None => (Ok tt, set_file path [] w)
    end.

(** Writing [data] and closing the file. *)
Definition file_write (path : str) (data : str) : io unit :=
  fun E w =>
    match write_fault E path with
    | Some (n, e) => (Raise e, set_file path (firstn n data) w)
    | None => (Ok tt, set_file path data w)
    end.

(** [open(path, "r")] and reading the file to its end. *)
Definition read_text (path : str) : io str :=
  fun E w =>
    match open_r_fault E path with
    | Some e => (Raise e, w)
    | None =>
        match files w path with
        | None => (Raise FileNotFoundError, w)
        | Some data =>
            match read_fault E path with
            | Some e => (Raise e, w)
            | None => (Ok data, w)
            end
        end
    end.

(** [subprocess.check_call(["git", "add", path])] *)
Definition check_call_git_add (path : str) : io unit :=
  fun E w =>
    let w1 := add_call path w in
    match git_add_fault E with
    | Some e => (Raise e, w1)
    | None =>
        match files w path with
        | Some data => (Ok tt, stage path data w1)
        | None => (Raise (CalledProcessError 128), w1)
        end
    end.

(** [os.path.join(a, b)] with the POSIX separator. *)
Definition os_path_join (a b : str) : str :=
  match b with
  | 47%N :: _ => b
  | _ =>
      match rev a with
      | [] => b
      | 47%N :: _ => a ++ b
      | _ => a ++ 47%N :: b
      end
  end.

(* ================================================================== *)
(** * The program *)
(* ================================================================== *)

Section Program.
Variable U : unicode_db.
Variable J : json_codec.

Definition get_tag_version (E : env) : result str :=
  rcatch
    (out <- git_describe E ;;
     strip_decode out)%result
    is_CalledProcessError
    (Ok (lit "v0")).

Definition get_commit_count_since_tag (E : env) (tag_version : str) : result Z :=
  rcatch
    (if str_eqb tag_version (lit "v0") then
       (out <- git_rev_list_count E (lit "HEAD") ;;
        s <- strip_decode out ;;
        py_int U s)%result
     else
       (out <- git_rev_list_count E (tag_version ++ lit "..HEAD") ;;
        s <- strip_decode out ;;
        py_int U s)%result)
    is_CalledProcessError
    (Ok 0%Z).

Definition get_total_changes (E : env) : result Z :=
  rcatch
    (out <- git_log_numstat E ;;
     log_stat <- strip_decode out ;;
     numbers <- int_each U (re_findall U log_stat) ;;
     Ok (py_sum numbers))%result
    is_CalledProcessError
    (Ok 0%Z).

(** The [try] block of [update_version]. *)
Definition update_version_try (new_version : str) : io unit :=
  (let app_directory := lit "." in
   let version_file_path := os_path_join app_directory (lit "version.txt") in
   logger_info (lit "Writing version to: " ++ version_file_path) ;;
   open_w version_file_path ;;
   file_write version_file_path (new_version ++ [LF]) ;;
   check_call_git_add version_file_path)%io.

Definition update_version (new_version : str) : io unit :=
  try_except
    (update_version_try new_version)
    is_Exception
    (fun e => logger_exception (lit "Failed to update version: ") e).

(** The loop over the folders: [None] when no folder has the target path,
    otherwise the folders with the name of the first such one rewritten. *)
Fixpoint label_first (target_path label : str) (folders : list json)
  : result (option (list json)) :=
  match folders with
  | [] => Ok None
  | folder :: rest =>
      (p <- getitem folder (lit "path") ;;
       if eq_str p target_path then
         (folder' <- setitem folder (lit "name") (JStr label) ;;
          Ok (Some (folder' :: rest)))
       else
         (r <- label_first target_path label rest ;;
          Ok (option_map (cons folder) r)))%result
  end.

(** The folders after the loop changed one of them in place; the loop can
    find a folder only among the elements of a list. *)
Definition with_items (folders : json) (items : list json) : json :=
  match folders with
  | JList _ => JList items
  | _ => folders
  end.

(** Lines 64 to 79: the change made to the loaded configuration.  The
    program changes the folder, or the list, in place; here the changed
    folders are put back under the key they were read from. *)
Definition relabel (target_path label : str) (workspace_config : json) : result json :=
  (folders <- getitem workspace_config (lit "folders") ;;
   items <- py_iter folders ;;
   found <- label_first target_path label items ;;
   match found with
   | Some items' =>
       setitem workspace_config (lit "folders") (with_items folders items')
   | None =>
       let new_folder :=
         JDict [(lit "path", JStr target_path); (lit "name", JStr label)] in
       folders' <- py_append folders new_folder ;;
       setitem workspace_config (lit "folders") folders'
   end)%result.

Definition json_load (text : str) : result json :=
  match json_loads J text with
  | Some v => Ok v
  | None => Raise JSONDecodeError
  end.

(** The [try] block of [update_folder_label]. *)
Definition update_folder_label_try (new_version : str) : io unit :=
  (let workspace_file_path := lit "../.vscode/machinegenesis.code-workspace" in
   let target_path := lit "../boxmux" in
   let label := lit "boxmux v" ++ new_version in
   text <- read_text workspace_file_path ;;
   workspace_config <- pure (json_load text) ;;
   workspace_config' <- pure (relabel target_path label workspace_config) ;;
   open_w workspace_file_path ;;
   file_write workspace_file_path (json_dumps J workspace_config'))%io.

Definition update_folder_label (new_version : str) : io unit :=
  try_except
    (update_folder_label_try new_version)
    is_Exception
    (fun e => logger_exception (lit "Failed to update folder label: ") e).

(** ["{}.{}.{}".format(major_version[1:], minor_version, patch_version)] *)
Definition full_version (major_version : str) (minor_version patch_version : Z) : str :=
  skipn 1 major_version ++ lit "." ++ str_of_int minor_version
    ++ lit "." ++ str_of_int patch_version.

Definition main : io unit :=
  (major_version <- query get_tag_version ;;
   minor_version <- query (fun E => get_commit_count_since_tag E major_version) ;;
   patch_version <- query get_total_changes ;;
   let v := full_version major_version minor_version patch_version in
   update_version v ;;
   update_folder_label v)%io.
End Program.



(* ================================================================== *)
(** * What the properties are stated with *)
(* ================================================================== *)

Section Tokens.
Variable U : unicode_db.

(** The words of a text: its maximal runs of word characters, from left to
    right; [cur] is the run being read. *)
Fixpoint words_from (cur : str) (s : str) : list str :=
  match s with
  | [] => match cur with [] => [] | _ :: _ => [cur] end
  | c :: s' =>
      if isword U c then words_from (cur ++ [c]) s'
      else match cur with
           | [] => words_from [] s'
           | _ :: _ => cur :: words_from [] s'
           end
  end.

Definition words (s : str) : list str := words_from [] s.


Definition digit_value (c : char) : N :=
  match todecimal U c with Some d => d | None => 0%N end.

(** The number a token of decimal digits writes in base ten. *)
Definition token_value (t : str) : Z :=
  Z.of_N (fold_left (fun acc c => 10 * acc + digit_value c)%N t 0%N).
End Tokens.

(** [d'] is [d] after [d[k] = v]: the entry of [k] holds [v] at the place it
    had, or at the end when [d] had none; no other entry differs. *)
Inductive dict_updated (k : str) (v : json) : pydict -> pydict -> Prop :=
| du_replace (a b : pydict) (old : json) :
    ~ In k (map fst a) ->
    dict_updated k v (a ++ (k, old) :: b) (a ++ (k, v) :: b)
| du_insert (d : pydict) :
    ~ In k (map fst d) ->
    dict_updated k v d (d ++ [(k, v)]).

(** A folder record whose path is the target path. *)
Definition has_path (target_path : str) (fields : pydict) : Prop :=
  dict_get fields (lit "path") = Some (JStr target_path).

(** A folder record with a path that is not the target path. *)
Definition other_folder (target_path : str) (folder : json) : Prop :=
  exists fields p,
    folder = JDict fields /\
    dict_get fields (lit "path") = Some p /\
    p <> JStr target_path.

Definition workspace_file_path : str := lit "../.vscode/machinegenesis.code-workspace".
Definition version_file_path : str := lit "./version.txt".
Definition target_path : str := lit "../boxmux".

(** No fault is injected on the operations on [path]. *)
Definition no_fault (E : env) (path : str) : Prop :=
  open_r_fault E path = None /\ read_fault E path = None /\
  open_w_fault E path = None /\ write_fault E path = None.

(** Every injected fault is an [Exception]. *)
Definition faults_are_Exceptions (E : env) : Prop :=
  (forall p e, open_r_fault E p = Some e -> is_Exception e = true) /\
  (forall p e, read_fault E p = Some e -> is_Exception e = true) /\
  (forall p e, open_w_fault E p = Some e -> is_Exception e = true) /\
  (forall p n e, write_fault E p = Some (n, e) -> is_Exception e = true) /\
  (forall e, git_add_fault E = Some e -> is_Exception e = true).

Definition commit_range (tag_version : str) : str :=
  if str_eqb tag_version (lit "v0") then lit "HEAD" else tag_version ++ lit "..HEAD".




Definition label_of (new_version : str) : str := lit "boxmux v" ++ new_version.

(** The content of the workspace file after [update_folder_label], from its
    content before, when no fault is injected. *)
Definition relabelled_file (J : json_codec) (new_version : str)
  (content : option str) : option str :=
  match content with
  | None => None
  | Some text =>
      match json_loads J text with
      | None => Some text
      | Some cfg =>
          match relabel target_path (label_of new_version) cfg with
          | Ok cfg' => Some (json_dumps J cfg')
          | Raise _ => Some text
          end
      end
  end.



(** [s] does not start with white space. *)
Definition starts_unspaced (s : bytes) : Prop :=
  forall b, hd_error s = Some b -> ascii_space b = false.

(** A folder record with the target path and the name [label]. *)
Definition labelled (target_path label : str) (fields : pydict) : Prop :=
  has_path target_path fields /\
  dict_get fields (lit "name") = Some (JStr label).

(** The folders are a list in which [update_folder_label] finds its way: a
    record with the target path after records with another path, or only
    records with another path. *)
Definition scannable (target_path : str) (folders : list json) : Prop :=
  (exists pre d post,
      folders = pre ++ JDict d :: post /\
      Forall (other_folder target_path) pre /\
      has_path target_path d) \/
  Forall (other_folder target_path) folders.

(** A document from which [workspace_config['folders']] cannot be read. *)
Definition lacks_folders (cfg : json) : Prop :=
  match cfg with
  | JDict top => dict_get top (lit "folders") = None
  | _ => True
  end.

(* ================================================================== *)
(** * Reference instances of the parameters *)
(* ================================================================== *)

(** A database with nothing beyond ASCII. *)
Definition ascii_db : unicode_db := {| uni_class := fun _ => UOther |}.

(** A codec that shows a [json_codec] whose [json_loads] inverts its
    [json_dumps]: every value is written as a tag, a length where one is
    needed, and its parts. *)
Module PrefixCodec.

Fixpoint enc (j : json) : str :=
  match j with
  | JNull => [0%N]
  | JBool b => [1%N; if b then 1%N else 0%N]
  | JInt n => match n with
              | Zneg p => [3%N; Npos p]
              | _ => [2%N; Z.to_N n]
              end
  | JFloat bits => [4%N; bits]
  | JStr s => 5%N :: N.of_nat (List.length s) :: s
  | JList l => 6%N :: N.of_nat (List.length l) :: List.concat (map enc l)
  | JDict d =>
      7%N :: N.of_nat (List.length d)
         :: List.concat (map (fun kv =>
                      match kv with
                      | (k, v) => N.of_nat (List.length k) :: k ++ enc v
                      end) d)
  end.

Definition enc_field (kv : str * json) : str :=
  match kv with
  | (k, v) => N.of_nat (List.length k) :: k ++ enc v
  end.

(** [n] values read one after the other with [dec1]. *)
Fixpoint items_with (dec1 : str -> option (json * str)) (n : nat) (s : str)
  : option (list json * str) :=
  match n with
  | O => Some ([], s)
  | S n' =>
      match dec1 s with
      | Some (j, r) =>
          match items_with dec1 n' r with
          | Some (l, r') => Some (j :: l, r')
          | None => None
          end
      | None => None
      end
  end.

(** [n] fields: the length of the key, the key, the value. *)
Fixpoint fields_with (dec1 : str -> option (json * str)) (n : nat) (s : str)
  : option (pydict * str) :=
  match n with
  | O => Some ([], s)
  | S n' =>
      match s with
      | kl :: r0 =>
          match dec1 (skipn (N.to_nat kl) r0) with
          | Some (v, r) =>
              match fields_with dec1 n' r with
              | Some (d, r') => Some ((firstn (N.to_nat kl) r0, v) :: d, r')
              | None => None
              end
          | None => None
          end
      | [] => None
      end
  end.

Fixpoint dec (fuel : nat) (s : str) : option (json * str) :=
  match fuel with
  | O => None
  | S f =>
      match s with
      | tag :: r =>
          if (tag =? 0)%N then Some (JNull, r)
          else match r with
               | n :: r' =>
                   if (tag =? 1)%N then Some (JBool (n =? 1)%N, r')
                   else if (tag =? 2)%N then Some (JInt (Z.of_N n), r')
                   else if (tag =? 3)%N then Some (JInt (- Z.of_N n), r')
                   else if (tag =? 4)%N then Some (JFloat n, r')
                   else if (tag =? 5)%N then
                     Some (JStr (firstn (N.to_nat n) r'), skipn (N.to_nat n) r')
                   else if (tag =? 6)%N then
                     match items_with (dec f) (N.to_nat n) r' with
                     | Some (l, r'') => Some (JList l, r'')
                     | None => None
                     end
                   else if (tag =? 7)%N then
                     match fields_with (dec f) (N.to_nat n) r' with
                     | Some (d, r'') => Some (JDict d, r'')
                     | None => None
                     end
                   else None
               | [] => None
               end
      | [] => None
      end
  end.

Definition loads (s : str) : option json :=
  match dec (S (List.length s)) s with
  | Some (j, []) => Some j
  | _ => None
  end.

Definition codec : json_codec := {| json_loads := loads; json_dumps := enc |}.

End PrefixCodec.

(* ================================================================== *)
(** * Sample environments and worlds *)
(* ================================================================== *)

Definition TAB : char := 9%N.

(** Answers as git gives them: tag [v1], five commits since the tag, and a
    log whose numbers add up to 42. *)
Definition sample_git : env :=
  {| git_describe := Ok (lit "v1" ++ [LF]);
     git_rev_list_count := fun _ => Ok (lit "5" ++ [LF]);
     git_log_numstat :=
       Ok (lit "3" ++ [TAB] ++ lit "10" ++ [TAB] ++ lit "README.md" ++ [LF]
           ++ lit "0" ++ [TAB] ++ lit "29" ++ [TAB] ++ lit "src/main.rs" ++ [LF]);
     open_r_fault := fun _ => None;
     read_fault := fun _ => None;
     open_w_fault := fun _ => None;
     write_fault := fun _ => None;
     git_add_fault := None |}.



(** No git executable: every query fails to start. *)
Definition no_git : env :=
  {| git_describe := Raise FileNotFoundError;
     git_rev_list_count := fun _ => Raise FileNotFoundError;
     git_log_numstat := Raise FileNotFoundError;
     open_r_fault := fun _ => None;
     read_fault := fun _ => None;
     open_w_fault := fun _ => None;
     write_fault := fun _ => None;
     git_add_fault := Some FileNotFoundError |}.

(** A directory where [version.txt] cannot be written. *)
Definition read_only : env :=
  {| git_describe := git_describe sample_git;
     git_rev_list_count := git_rev_list_count sample_git;
     git_log_numstat := git_log_numstat sample_git;
     open_r_fault := fun _ => None;
     read_fault := fun _ => None;
     open_w_fault := fun p => if str_eqb p version_file_path
                              then Some PermissionError else None;
     write_fault := fun _ => None;
     git_add_fault := None |}.

Definition docs_folder : json :=
  JDict [(lit "path", JStr (lit "../docs")); (lit "name", JStr (lit "docs"))].

Definition boxmux_fields : pydict :=
  [(lit "name", JStr (lit "boxmux v0.0.1")); (lit "path", JStr (lit "../boxmux"));
   (lit "pinned", JBool true)].

Definition second_boxmux : json :=
  JDict [(lit "path", JStr (lit "../boxmux")); (lit "name", JStr (lit "again"))].

(** A workspace with the folder of the target path, twice. *)
Definition sample_config : json :=
  JDict [(lit "folders", JList [docs_folder; JDict boxmux_fields; second_boxmux]);
         (lit "settings", JDict [])].

(** A workspace without it. *)
Definition fresh_config : json :=
  JDict [(lit "settings", JDict []); (lit "folders", JList [docs_folder])].

Definition world_with (workspace : option str) : world :=
  {| files := fun p => if str_eqb p workspace_file_path then workspace else None;
     git_index := [];
     git_add_calls := [];
     log := [] |}.

Definition sample_world : world :=
  world_with (Some (PrefixCodec.enc sample_config)).

Definition fresh_world : world :=
  world_with (Some (PrefixCodec.enc fresh_config)).

(** A workspace with a remote folder, which has a [uri] and no [path]. *)
Definition remote_folder : pydict := [(lit "uri", JStr (lit "vscode-remote://host/srv"))].

Definition remote_config : json :=
  JDict [(lit "folders", JList [docs_folder; JDict remote_folder; JDict boxmux_fields])].


Definition blank_count_git : env :=
  {| git_describe := git_describe sample_git;
     git_rev_list_count := fun _ => Ok [LF];
     git_log_numstat := git_log_numstat sample_git;
     open_r_fault := fun _ => None;
     read_fault := fun _ => None;
     open_w_fault := fun _ => None;
     write_fault := fun _ => None;
     git_add_fault := None |}.

(** The disk fills up while a file is written: nothing of the data reaches
    a file that was opened. *)
Definition disk_full : env :=
  {| git_describe := git_describe sample_git;
     git_rev_list_count := git_rev_list_count sample_git;
     git_log_numstat := git_log_numstat sample_git;
     open_r_fault := fun _ => None;
     read_fault := fun _ => None;
     open_w_fault := fun _ => None;
     write_fault := fun _ => Some (O, OSError);
     git_add_fault := None |}.

Definition old_version_world : world :=
  {| files := fun p => if str_eqb p version_file_path
                       then Some (lit "0.0.1" ++ [LF])
                       else files sample_world p;
     git_index := [];
     git_add_calls := [];
     log := [] |}.

(** A workspace whose folders are an object, not a list. *)
Definition keyed_config : json :=
  JDict [(lit "folders", JDict [(lit "boxmux", JStr (lit "../boxmux"))])].

(** A workspace document without folders. *)
Definition bare_config : json := JDict [(lit "settings", JDict [])].

(** A repository where every query exits with a non-zero status. *)
Definition failing_git : env :=
  {| git_describe := Raise (CalledProcessError 128);
     git_rev_list_count := fun _ => Raise (CalledProcessError 128);
     git_log_numstat := Raise (CalledProcessError 128);
     open_r_fault := fun _ => None;
     read_fault := fun _ => None;
     open_w_fault := fun _ => None;
     write_fault := fun _ => None;
     git_add_fault := Some (CalledProcessError 128) |}.

Definition with_describe (answer : result bytes) (E : env) : env :=
  {| git_describe := answer;
     git_rev_list_count := git_rev_list_count E;
     git_log_numstat := git_log_numstat E;
     open_r_fault := open_r_fault E;
     read_fault := read_fault E;
     open_w_fault := open_w_fault E;
     write_fault := write_fault E;
     git_add_fault := git_add_fault E |}.

(* ================================================================== *)
(** * Strings *)
(* ================================================================== *)

Lemma str_eqb_eq (a b : str) : str_eqb a b = true <-> a = b.
Proof.
  revert b; induction a as [|x a IH]; destruct b as [|y b]; simpl;
    try (split; [discriminate | congruence]).
  - split; reflexivity.
  - rewrite andb_true_iff, N.eqb_eq, IH. split.
    + intros [-> ->]; reflexivity.
    + intros H; inversion H; auto.
Qed.

Lemma str_eqb_refl (a : str) : str_eqb a a = true.
Proof. apply str_eqb_eq; reflexivity. Qed.

Lemma str_eqb_neq (a b : str) : str_eqb a b = false <-> a <> b.
Proof.
  rewrite <- str_eqb_eq. destruct (str_eqb a b); split; congruence.
Qed.

Lemma eq_str_true (x : json) (s : str) : eq_str x s = true <-> x = JStr s.
Proof.
  destruct x; simpl; try (split; [discriminate | congruence]).
  rewrite str_eqb_eq. split; congruence.
Qed.

Lemma eq_str_false (x : json) (s : str) : eq_str x s = false <-> x <> JStr s.
Proof.
  rewrite <- eq_str_true. destruct (eq_str x s); split; congruence.
Qed.

(* ================================================================== *)
(** * Character classes *)
(* ================================================================== *)

Section ClassFacts.
Variable U : unicode_db.

Lemma isdecimal_isword c : isdecimal U c = true -> isword U c = true.
Proof.
  unfold isword, isalnum, uni_alnum, isdecimal, todecimal, uni_decimal.
  destruct (c <? 128)%N.
  - intros ->. rewrite orb_true_r. reflexivity.
  - destruct (uni_class U c); simpl; try discriminate; reflexivity.
Qed.

Lemma isdecimal_int_digit c :
  isdecimal U c = true -> int_digit U c = Some (digit_value U c).
Proof.
  unfold isdecimal, digit_value, int_digit, todecimal, ascii_digit, between.
  destruct (c <? 128)%N eqn:H128; destruct (c <? 127)%N eqn:H127.
  - destruct ((48 <=? c) && (c <=? 57))%N; simpl; [reflexivity | discriminate].
  - apply N.ltb_lt in H128. apply N.ltb_ge in H127.
    assert (c = 127%N) by lia. subst c. simpl. discriminate.
  - apply N.ltb_ge in H128. apply N.ltb_lt in H127. lia.
  - destruct (uni_decimal U c); simpl; [reflexivity | discriminate].
Qed.

Lemma isdecimal_not_space c : isdecimal U c = true -> int_space U c = false.
Proof.
  unfold isdecimal, int_space, todecimal, ascii_digit, ascii_space, between,
    uni_space, uni_decimal.
  destruct (c <? 128)%N eqn:H128; destruct (c <? 127)%N eqn:H127.
  - destruct ((48 <=? c) && (c <=? 57))%N eqn:Hd; simpl; [|discriminate].
    intros _. apply andb_true_iff in Hd as [H1 H2].
    apply N.leb_le in H1. apply N.leb_le in H2.
    apply orb_false_iff; split.
    + apply andb_false_iff. right. apply N.leb_gt. lia.
    + apply N.eqb_neq. lia.
  - apply N.ltb_lt in H128. apply N.ltb_ge in H127.
    assert (c = 127%N) by lia. subst c. simpl. discriminate.
  - apply N.ltb_ge in H128. apply N.ltb_lt in H127. lia.
  - destruct (uni_class U c); simpl; try discriminate; reflexivity.
Qed.

Lemma isdecimal_not_sign c :
  isdecimal U c = true -> (c =? 43)%N = false /\ (c =? 45)%N = false /\ (c =? 95)%N = false.
Proof.
  intros H.
  assert (c <> 43 /\ c <> 45 /\ c <> 95)%N as (H1 & H2 & H3).
  { repeat split; intros ->; vm_compute in H; discriminate. }
  repeat split; apply N.eqb_neq; assumption.
Qed.
End ClassFacts.

(* ================================================================== *)
(** * The pattern's matches are the all-digit words *)
(* ================================================================== *)

Lemma dropwhile_length {A} (p : A -> bool) l :
  (List.length (dropwhile p l) <= List.length l)%nat.
Proof.
  induction l as [|x l IH]; simpl; [lia|]. destruct (p x); simpl; lia.
Qed.

Lemma dropwhile_stop {A} (p : A -> bool) l :
  match l with x :: _ => p x = false | [] => True end -> dropwhile p l = l.
Proof. destruct l as [|x l]; simpl; [reflexivity|]. intros ->. reflexivity. Qed.

Section Findall.
Variable U : unicode_db.

Lemma words_from_run cur s :
  cur <> [] ->
  words_from U cur s =
    (cur ++ takewhile (isword U) s) :: words_from U [] (dropwhile (isword U) s).
Proof.
  revert cur; induction s as [|c s IH]; intros cur Hcur; simpl.
  - rewrite List.app_nil_r. destruct cur; [congruence | reflexivity].
  - destruct (isword U c) eqn:Hc.
    + rewrite IH by (destruct cur; discriminate).
      rewrite <- app_assoc. reflexivity.
    + rewrite List.app_nil_r. simpl. rewrite Hc.
      destruct cur; [congruence | reflexivity].
Qed.

Lemma words_from_word c s :
  isword U c = true ->
  words_from U [] (c :: s) =
    (c :: takewhile (isword U) s) :: words_from U [] (dropwhile (isword U) s).
Proof.
  intros Hc. simpl. rewrite Hc. simpl.
  rewrite words_from_run by discriminate. reflexivity.
Qed.

Lemma words_from_nonword c s :
  isword U c = false -> words_from U [] (c :: s) = words_from U [] s.
Proof. intros Hc. simpl. rewrite Hc. reflexivity. Qed.

(** What [\d+\b] finds after a first digit: the longest run of digits when a
    non-word character or the end follows it, and nothing otherwise. *)
Lemma digits_then_boundary_spec s c :
  isword U c = true ->
  digits_then_boundary U c s =
    if oword U (hd_error (dropwhile (isdecimal U) s)) then None
    else Some (takewhile (isdecimal U) s, dropwhile (isdecimal U) s).
Proof.
  revert c; induction s as [|d s IH]; intros c Hc.
  - simpl. unfold word_boundary. simpl. rewrite Hc. reflexivity.
  - simpl. destruct (isdecimal U d) eqn:Hd.
    + rewrite IH by (apply isdecimal_isword; exact Hd).
      destruct (oword U (hd_error (dropwhile (isdecimal U) s))); [|reflexivity].
      unfold word_boundary. simpl.
      rewrite Hc, (isdecimal_isword U d Hd). reflexivity.
    + unfold word_boundary. simpl. rewrite Hc.
      destruct (isword U d); reflexivity.
Qed.

Lemma alldigits_takewhile s : forallb (isdecimal U) (takewhile (isdecimal U) s) = true.
Proof.
  induction s as [|c s IH]; simpl; [reflexivity|].
  destruct (isdecimal U c) eqn:Hc; simpl; [rewrite Hc; exact IH | reflexivity].
Qed.

Lemma last_alldigits m c :
  forallb (isdecimal U) (c :: m) = true -> isword U (last (c :: m) 0%N) = true.
Proof.
  revert c; induction m as [|d m IH]; intros c H.
  - simpl in *. apply isdecimal_isword. apply andb_true_iff in H. apply H.
  - change (last (c :: d :: m) 0%N) with (last (d :: m) 0%N).
    apply IH. simpl in H. apply andb_true_iff in H. apply H.
Qed.

(** A run of digits that a non-word character or the end follows is a word. *)
Lemma word_of_digits s :
  oword U (hd_error (dropwhile (isdecimal U) s)) = false ->
  takewhile (isword U) s = takewhile (isdecimal U) s /\
  dropwhile (isword U) s = dropwhile (isdecimal U) s.
Proof.
  induction s as [|c s IH]; simpl; [auto|].
  destruct (isdecimal U c) eqn:Hc.
  - rewrite (isdecimal_isword U c Hc). intros H.
    destruct (IH H) as [-> ->]. auto.
  - simpl. intros ->. auto.
Qed.

(** A run of digits that a word character follows is not a whole word. *)
Lemma word_past_digits s :
  oword U (hd_error (dropwhile (isdecimal U) s)) = true ->
  forallb (isdecimal U) (takewhile (isword U) s) = false.
Proof.
  induction s as [|c s IH]; simpl; [discriminate|].
  destruct (isdecimal U c) eqn:Hc.
  - rewrite (isdecimal_isword U c Hc). intros H. simpl. rewrite Hc. apply IH, H.
  - simpl. intros ->. simpl. rewrite Hc. reflexivity.
Qed.

(** The scan, from a position outside a word or inside one. *)
Lemma findall_from_words fuel : forall prev s,
  (List.length s < fuel)%nat ->
  findall_from U fuel prev s =
    filter (forallb (isdecimal U))
      (words_from U [] (if oword U prev then dropwhile (isword U) s else s)).
Proof.
  induction fuel as [|fuel IH]; intros prev s Hlen; [lia|].
  destruct s as [|c s].
  - simpl. unfold match_at. simpl.
    destruct (word_boundary U prev None); destruct (oword U prev); reflexivity.
  - simpl in Hlen.
    cbn [findall_from]. unfold match_at. cbn [hd_error].
    unfold word_boundary. cbn [oword].
    destruct (oword U prev) eqn:Hprev; destruct (isword U c) eqn:Hc; cbn [xorb].
    + (* inside a word, still inside *)
      rewrite IH by lia. cbn [oword]. rewrite Hc.
      simpl. rewrite Hc. reflexivity.
    + (* inside a word, leaving it *)
      destruct (isdecimal U c) eqn:Hd.
      { apply isdecimal_isword in Hd. congruence. }
      rewrite IH by lia. cbn [oword]. rewrite Hc.
      simpl dropwhile. rewrite Hc. rewrite words_from_nonword by exact Hc.
      reflexivity.
    + (* outside a word, entering one *)
      rewrite words_from_word by exact Hc.
      destruct (isdecimal U c) eqn:Hd.
      * rewrite digits_then_boundary_spec by exact Hc.
        destruct (oword U (hd_error (dropwhile (isdecimal U) s))) eqn:Hnext.
        { rewrite IH by lia. cbn [oword]. rewrite Hc.
          cbn [filter forallb]. rewrite Hd.
          rewrite (word_past_digits s Hnext). reflexivity. }
        destruct (word_of_digits s Hnext) as [Ht Hr].
        rewrite Ht, Hr. cbn [filter forallb]. rewrite Hd, alldigits_takewhile.
        cbn [andb]. f_equal.
        rewrite IH by (pose proof (dropwhile_length (isdecimal U) s); lia).
        cbn [oword].
        rewrite last_alldigits
          by (cbn [forallb]; rewrite Hd, alldigits_takewhile; reflexivity).
        rewrite dropwhile_stop; [reflexivity|].
        destruct (dropwhile (isdecimal U) s); [exact I | exact Hnext].
      * rewrite IH by lia. cbn [oword]. rewrite Hc.
        cbn [filter forallb]. rewrite Hd. reflexivity.
    + (* outside a word, staying outside *)
      rewrite IH by lia. cbn [oword]. rewrite Hc.
      rewrite words_from_nonword by exact Hc. reflexivity.
Qed.

(** [re.findall(r'\b\d+\b', s)] returns, in order, the maximal runs of word
    characters of [s] that are made of decimal digits only. *)
Theorem findall_returns_digit_words s :
  re_findall U s = filter (forallb (isdecimal U)) (words U s).
Proof.
  unfold re_findall, words.
  rewrite findall_from_words by lia.
  cbn [oword]. reflexivity.
Qed.
End Findall.

(* ================================================================== *)
(** * Integers and their numerals *)
(* ================================================================== *)

Section IntFacts.
Variable U : unicode_db.

Lemma int_digits_token t : forall acc,
  forallb (isdecimal U) t = true ->
  int_digits U false acc t =
    Some (fold_left (fun a c => 10 * a + digit_value U c)%N t acc, []).
Proof.
  induction t as [|c t IH]; intros acc H; simpl; [reflexivity|].
  simpl in H. apply andb_true_iff in H as [Hc Ht].
  rewrite (isdecimal_int_digit U c Hc). apply IH, Ht.
Qed.

(** [int] of a token of digits is the number the token writes. *)
Lemma py_int_token t :
  t <> [] -> forallb (isdecimal U) t = true -> py_int U t = Ok (token_value U t).
Proof.
  destruct t as [|c t]; [congruence|]. intros _ H.
  pose proof H as H'. simpl in H'. apply andb_true_iff in H' as [Hc _].
  destruct (isdecimal_not_sign U c Hc) as (Hp & Hm & _).
  unfold py_int. cbn [dropwhile].
  rewrite (isdecimal_not_space U c Hc), Hp, Hm.
  rewrite (isdecimal_int_digit U c Hc). cbn [is_some].
  rewrite (int_digits_token (c :: t) 0%N H). reflexivity.
Qed.









(** ** Numerals *)

Lemma digit_value_ascii c :
  (c < 128)%N -> digit_value U c = match ascii_digit c with Some d => d | None => 0%N end.
Proof.
  intros H. unfold digit_value, todecimal.
  apply N.ltb_lt in H. rewrite H. reflexivity.
Qed.

Ltac digit_value_compute :=
  match goal with
  | |- context [digit_value U ?c] =>
      let v := eval vm_compute in
        (match ascii_digit c with Some d => d | None => 0%N end) in
      replace (digit_value U c) with v
        by (rewrite digit_value_ascii; reflexivity)
  end.

Lemma uint_digits_acc d : forall p,
  fold_left (fun a c => 10 * a + digit_value U c)%N (uint_digits d) (Npos p)
  = Npos (Pos.of_uint_acc d p).
Proof.
  induction d; intros p; cbn [uint_digits fold_left Pos.of_uint_acc];
    try reflexivity;
    rewrite <- IHd; f_equal; digit_value_compute; lia.
Qed.

Lemma uint_digits_value d :
  fold_left (fun a c => 10 * a + digit_value U c)%N (uint_digits d) 0%N
  = Pos.of_uint d.
Proof.
  induction d; cbn [uint_digits fold_left Pos.of_uint]; try reflexivity;
    digit_value_compute; [exact IHd | apply uint_digits_acc ..].
Qed.

Lemma uint_digits_alldigits d : forallb (isdecimal U) (uint_digits d) = true.
Proof. induction d; simpl; try reflexivity; exact IHd. Qed.

Lemma uint_digits_nonempty d : d <> Decimal.Nil -> uint_digits d <> [].
Proof. destruct d; simpl; congruence. Qed.

Lemma to_uint_nonnil n : N.to_uint n <> Decimal.Nil.
Proof.
  destruct n; simpl; [discriminate|]. apply DecimalPos.Unsigned.to_uint_nonnil.
Qed.

(** [int(str(n)) == n] for every natural number. *)
Lemma py_int_str_of_N n : py_int U (str_of_N n) = Ok (Z.of_N n).
Proof.
  unfold str_of_N.
  rewrite py_int_token.
  - unfold token_value. rewrite uint_digits_value.
    change (Pos.of_uint (N.to_uint n)) with (N.of_uint (N.to_uint n)).
    rewrite DecimalN.Unsigned.of_to. reflexivity.
  - apply uint_digits_nonempty, to_uint_nonnil.
  - apply uint_digits_alldigits.
Qed.

Lemma py_int_negative t :
  t <> [] -> forallb (isdecimal U) t = true ->
  py_int U (45%N :: t) = Ok (- token_value U t)%Z.
Proof.
  destruct t as [|c t]; [congruence|]. intros _ H.
  pose proof H as H'. simpl in H'. apply andb_true_iff in H' as [Hc _].
  unfold py_int. cbn [dropwhile].
  change (int_space U 45%N) with false. cbn iota.
  change (45 =? 43)%N with false. change (45 =? 45)%N with true. cbn iota.
  rewrite (isdecimal_int_digit U c Hc). cbn [is_some].
  rewrite (int_digits_token (c :: t) 0%N H). reflexivity.
Qed.

(** [int(str(n)) == n] for every integer. *)
Lemma py_int_str_of_int n : py_int U (str_of_int n) = Ok n.
Proof.
  destruct n as [|p|p]; cbn [str_of_int].
  - reflexivity.
  - apply (py_int_str_of_N (Npos p)).
  - unfold str_of_N. rewrite py_int_negative.
    + unfold token_value. rewrite uint_digits_value.
      change (Pos.of_uint (N.to_uint (Npos p))) with (N.of_uint (N.to_uint (Npos p))).
      rewrite DecimalN.Unsigned.of_to. reflexivity.
    + apply uint_digits_nonempty, to_uint_nonnil.
    + apply uint_digits_alldigits.
Qed.

End IntFacts.

(** ** What a query prints *)



Lemma uint_digits_ascii d : Forall (fun b => between 48 57 b = true) (uint_digits d).
Proof. induction d; simpl; constructor; (reflexivity || assumption). Qed.


Section Words.
Variable U : unicode_db.






End Words.

(* ================================================================== *)
(** * The version derivation *)
(* ================================================================== *)

Section Derivation.
Variable U : unicode_db.

Lemma get_commit_count_range E tag :
  get_commit_count_since_tag U E tag =
    rcatch
      (out <- git_rev_list_count E (commit_range tag) ;;
       s <- strip_decode out ;;
       py_int U s)%result
      is_CalledProcessError (Ok 0%Z).
Proof.
  unfold get_commit_count_since_tag, commit_range.
  destruct (str_eqb tag (lit "v0")); reflexivity.
Qed.






End Derivation.



(* ================================================================== *)
(** * Dictionaries *)
(* ================================================================== *)

Lemma dict_get_app_hit (a b : pydict) k v :
  ~ In k (map fst a) -> dict_get (a ++ (k, v) :: b) k = Some v.
Proof.
  induction a as [|[k' v'] a IH]; simpl; intros H.
  - rewrite str_eqb_refl. reflexivity.
  - destruct (str_eqb k' k) eqn:Hk.
    + apply str_eqb_eq in Hk. tauto.
    + apply IH. tauto.
Qed.

Lemma dict_set_app_hit (a b : pydict) k old v :
  ~ In k (map fst a) ->
  dict_set (a ++ (k, old) :: b) k v = a ++ (k, v) :: b.
Proof.
  induction a as [|[k' v'] a IH]; simpl; intros H.
  - rewrite str_eqb_refl. reflexivity.
  - destruct (str_eqb k' k) eqn:Hk.
    + apply str_eqb_eq in Hk. tauto.
    + rewrite IH by tauto. reflexivity.
Qed.

Lemma dict_get_absent (d : pydict) k :
  dict_get d k = None <-> ~ In k (map fst d).
Proof.
  induction d as [|[k' v'] d IH]; simpl; [tauto|].
  destruct (str_eqb k' k) eqn:Hk.
  - apply str_eqb_eq in Hk. split; [discriminate | tauto].
  - apply str_eqb_neq in Hk. rewrite IH. tauto.
Qed.

Lemma dict_get_split (d : pydict) k v :
  dict_get d k = Some v ->
  exists a b, d = a ++ (k, v) :: b /\ ~ In k (map fst a).
Proof.
  induction d as [|[k' v'] d IH]; simpl; [discriminate|].
  destruct (str_eqb k' k) eqn:Hk.
  - apply str_eqb_eq in Hk. intros H; inversion H; subst.
    exists [], d. simpl. tauto.
  - apply str_eqb_neq in Hk. intros H.
    destruct (IH H) as (a & b & -> & Ha).
    exists ((k', v') :: a), b. simpl. split; [reflexivity | tauto].
Qed.

Lemma dict_set_absent (d : pydict) k v :
  ~ In k (map fst d) -> dict_set d k v = d ++ [(k, v)].
Proof.
  induction d as [|[k' v'] d IH]; simpl; intros H; [reflexivity|].
  destruct (str_eqb k' k) eqn:Hk.
  - apply str_eqb_eq in Hk. tauto.
  - rewrite IH by tauto. reflexivity.
Qed.

(** [dict_set] is the update that [dict_updated] describes. *)
Lemma dict_set_updated (d : pydict) k v : dict_updated k v d (dict_set d k v).
Proof.
  destruct (dict_get d k) as [old|] eqn:H.
  - destruct (dict_get_split d k old H) as (a & b & -> & Ha).
    rewrite dict_set_app_hit by exact Ha. apply du_replace, Ha.
  - apply dict_get_absent in H.
    rewrite dict_set_absent by exact H. apply du_insert, H.
Qed.

Lemma dict_get_set_same (d : pydict) k v : dict_get (dict_set d k v) k = Some v.
Proof.
  induction d as [|[k' v'] d IH]; simpl.
  - rewrite str_eqb_refl. reflexivity.
  - destruct (str_eqb k' k) eqn:Hk; simpl; rewrite Hk; [reflexivity | exact IH].
Qed.

Lemma dict_get_set_other (d : pydict) k k' v :
  k <> k' -> dict_get (dict_set d k v) k' = dict_get d k'.
Proof.
  intros Hne. induction d as [|[k0 v0] d IH]; simpl.
  - destruct (str_eqb k k') eqn:Hk; [apply str_eqb_eq in Hk; tauto | reflexivity].
  - destruct (str_eqb k0 k) eqn:Hk; simpl.
    + apply str_eqb_eq in Hk. subst k0.
      destruct (str_eqb k k') eqn:Hk'; [apply str_eqb_eq in Hk'; tauto | reflexivity].
    + rewrite IH. reflexivity.
Qed.

Lemma dict_set_set (d : pydict) k v v' :
  dict_set (dict_set d k v) k v' = dict_set d k v'.
Proof.
  induction d as [|[k0 v0] d IH]; simpl.
  - rewrite str_eqb_refl. reflexivity.
  - destruct (str_eqb k0 k) eqn:Hk; simpl; rewrite Hk; [reflexivity|].
    rewrite IH. reflexivity.
Qed.

(* ================================================================== *)
(** * The loop over the folders *)
(* ================================================================== *)

Section Loop.
Variables target label : str.

Lemma other_folder_step folder :
  other_folder target folder ->
  exists p, getitem folder (lit "path") = Ok p /\ eq_str p target = false.
Proof.
  intros (d & p & -> & Hp & Hne). exists p. simpl. rewrite Hp.
  split; [reflexivity | apply eq_str_false, Hne].
Qed.

(** The loop stops at the first folder with the target path and rewrites its
    name. *)
Lemma label_first_found pre d post :
  Forall (other_folder target) pre ->
  has_path target d ->
  label_first target label (pre ++ JDict d :: post) =
    Ok (Some (pre ++ JDict (dict_set d (lit "name") (JStr label)) :: post)).
Proof.
  intros Hpre Hd. induction Hpre as [|f pre Hf _ IH]; simpl.
  - unfold has_path in Hd. rewrite Hd. simpl. rewrite str_eqb_refl. reflexivity.
  - destruct (other_folder_step f Hf) as (p & -> & Hp). simpl. rewrite Hp, IH.
    reflexivity.
Qed.

(** Without such a folder the loop runs to the end. *)
Lemma label_first_not_found folders :
  Forall (other_folder target) folders ->
  label_first target label folders = Ok None.
Proof.
  induction 1 as [|f l Hf _ IH]; simpl; [reflexivity|].
  destruct (other_folder_step f Hf) as (p & -> & Hp). simpl. rewrite Hp, IH.
  reflexivity.
Qed.

Lemma label_first_inv folders : forall r,
  label_first target label folders = Ok r ->
  match r with
  | Some folders' =>
      exists pre d post,
        folders = pre ++ JDict d :: post /\
        Forall (other_folder target) pre /\
        has_path target d /\
        folders' = pre ++ JDict (dict_set d (lit "name") (JStr label)) :: post
  | None => Forall (other_folder target) folders
  end.
Proof.
  induction folders as [|f l IH]; simpl; intros r H.
  - inversion H; subst. constructor.
  - destruct f as [| | | | |items|d]; simpl in H; try discriminate.
    destruct (dict_get d (lit "path")) as [p|] eqn:Hp; simpl in H; [|discriminate].
    destruct (eq_str p target) eqn:Heq.
    + apply eq_str_true in Heq. subst p. simpl in H. inversion H; subst.
      exists [], d, l. repeat split; auto.
    + destruct (label_first target label l) as [r'|e] eqn:Hl; simpl in H;
        [|discriminate].
      inversion H; subst.
      assert (Hf : other_folder target (JDict d)).
      { exists d, p. repeat split; auto. apply eq_str_false, Heq. }
      specialize (IH r' eq_refl). destruct r' as [l'|]; simpl.
      * destruct IH as (pre & d0 & post & -> & Hpre & Hd0 & ->).
        exists (JDict d :: pre), d0, post. repeat split; auto.
      * constructor; assumption.
Qed.
End Loop.

(* ================================================================== *)
(** * The change to the configuration *)
(* ================================================================== *)

Section Relabel.
Variables target label : str.

Lemma relabel_found top1 top2 pre d post :
  ~ In (lit "folders") (map fst top1) ->
  Forall (other_folder target) pre ->
  has_path target d ->
  relabel target label
    (JDict (top1 ++ (lit "folders", JList (pre ++ JDict d :: post)) :: top2)) =
  Ok (JDict (top1 ++ (lit "folders",
                      JList (pre ++ JDict (dict_set d (lit "name") (JStr label)) :: post))
                  :: top2)).
Proof.
  intros Htop Hpre Hd. unfold relabel. simpl.
  rewrite dict_get_app_hit by exact Htop. simpl.
  rewrite label_first_found by assumption. simpl.
  rewrite dict_set_app_hit by exact Htop. reflexivity.
Qed.

Lemma relabel_not_found top1 top2 folders :
  ~ In (lit "folders") (map fst top1) ->
  Forall (other_folder target) folders ->
  relabel target label (JDict (top1 ++ (lit "folders", JList folders) :: top2)) =
  Ok (JDict (top1 ++ (lit "folders",
                      JList (folders ++
                               [JDict [(lit "path", JStr target);
                                       (lit "name", JStr label)]]))
                  :: top2)).
Proof.
  intros Htop Hfs. unfold relabel. simpl.
  rewrite dict_get_app_hit by exact Htop. simpl.
  rewrite label_first_not_found by assumption. simpl.
  rewrite dict_set_app_hit by exact Htop. reflexivity.
Qed.

Lemma has_path_after_name d :
  has_path target d -> has_path target (dict_set d (lit "name") (JStr label)).
Proof.
  unfold has_path. intros H. rewrite dict_get_set_other; [exact H | discriminate].
Qed.

(** The loop finds a folder only among the elements of a list. *)
Lemma found_in_list folders items pre d post :
  py_iter folders = Ok items ->
  items = pre ++ JDict d :: post ->
  folders = JList items.
Proof.
  intros Hit Heq.
  assert (Hin : In (JDict d) items) by (subst items; apply in_elt).
  destruct folders; simpl in Hit; try discriminate; inversion Hit; subst.
  - rewrite <- H0 in Hin. apply in_map_iff in Hin as (c & Hc & _). discriminate.
  - reflexivity.
  - rewrite <- H0 in Hin. apply in_map_iff in Hin as (kv & Hkv & _). discriminate.
Qed.

(** Applied to its own result, the change is the identity. *)
Lemma relabel_idempotent cfg cfg' :
  relabel target label cfg = Ok cfg' ->
  relabel target label cfg' = Ok cfg'.
Proof.
  unfold relabel. intros H.
  destruct cfg as [| | | | | |top]; simpl in H; try discriminate.
  destruct (dict_get top (lit "folders")) as [fo|] eqn:Hfo; simpl in H;
    [|discriminate].
  destruct (py_iter fo) as [items|e] eqn:Hit; simpl in H; [|discriminate].
  destruct (label_first target label items) as [r|e] eqn:Hl; simpl in H;
    [|discriminate].
  pose proof (label_first_inv target label items r Hl) as Hinv.
  destruct r as [items'|].
  - destruct Hinv as (pre & d & post & Hitems & Hpre & Hd & Hitems').
    pose proof (found_in_list fo items pre d post Hit Hitems) as ->.
    simpl in H. inversion H; subst cfg'. clear H.
    simpl. rewrite dict_get_set_same. simpl.
    rewrite Hitems'.
    rewrite label_first_found
      by (try assumption; apply has_path_after_name; assumption).
    simpl. rewrite dict_set_set, dict_set_set. reflexivity.
  - destruct fo; simpl in H; try discriminate.
    simpl in Hit. inversion Hit; subst items0. inversion H; subst cfg'. clear H.
    simpl. rewrite dict_get_set_same. simpl.
    rewrite (label_first_found target label items
               [(lit "path", JStr target); (lit "name", JStr label)] [])
      by (assumption || reflexivity).
    simpl. rewrite dict_set_set. reflexivity.
Qed.
End Relabel.

(* ================================================================== *)
(** * The workspace file *)
(* ================================================================== *)

Lemma files_add_log r w p : files (add_log r w) p = files w p.
Proof. reflexivity. Qed.

Lemma files_set_file_same path data w : files (set_file path data w) path = Some data.
Proof. simpl. rewrite str_eqb_refl. reflexivity. Qed.

Section Label.
Variable J : json_codec.

Lemma update_folder_label_file v E w :
  no_fault E workspace_file_path ->
  files (snd (update_folder_label J v E w)) workspace_file_path =
    relabelled_file J v (files w workspace_file_path).
Proof.
  intros (Hor & Hr & Hkw & Hw).
  unfold update_folder_label, update_folder_label_try, try_except, bind, read_text, pure, open_w,
    file_write, json_load, logger_exception, relabelled_file.
  fold workspace_file_path. fold target_path. fold (label_of v).
  rewrite Hor, Hr, Hkw, Hw.
  destruct (files w workspace_file_path) as [text|] eqn:Hf; simpl.
  - destruct (json_loads J text) as [cfg|]; simpl.
    + destruct (relabel target_path (label_of v) cfg) as [cfg'|e]; simpl.
      * reflexivity.
      * destruct (is_Exception e); simpl; exact Hf.
    + exact Hf.
  - exact Hf.
Qed.
End Label.

(* ================================================================== *)
(** * The reference codec reads back what it writes *)
(* ================================================================== *)

Module PrefixCodecFacts.
Import PrefixCodec.

Lemma enc_list l :
  enc (JList l) = 6%N :: N.of_nat (List.length l) :: List.concat (map enc l).
Proof. reflexivity. Qed.

Lemma enc_dict d :
  enc (JDict d) = 7%N :: N.of_nat (List.length d) :: List.concat (map enc_field d).
Proof. reflexivity. Qed.

Lemma firstn_exact (s rest : str) :
  firstn (N.to_nat (N.of_nat (List.length s))) (s ++ rest) = s.
Proof.
  rewrite Nat2N.id, firstn_app, Nat.sub_diag, firstn_all. simpl.
  apply List.app_nil_r.
Qed.

Lemma skipn_exact (s rest : str) :
  skipn (N.to_nat (N.of_nat (List.length s))) (s ++ rest) = rest.
Proof.
  rewrite Nat2N.id, skipn_app, Nat.sub_diag, skipn_all. reflexivity.
Qed.

Lemma items_with_enc dec1 l : forall rest,
  Forall (fun x => forall rest, dec1 (enc x ++ rest) = Some (x, rest)) l ->
  items_with dec1 (List.length l) (List.concat (map enc l) ++ rest) = Some (l, rest).
Proof.
  induction l as [|x l IH]; intros rest H; simpl; [reflexivity|].
  inversion H as [|? ? Hx Hl]; subst.
  rewrite <- List.app_assoc, Hx, IH by exact Hl. reflexivity.
Qed.

Lemma fields_with_enc dec1 d : forall rest,
  Forall (fun kv => forall rest, dec1 (enc (snd kv) ++ rest) = Some (snd kv, rest)) d ->
  fields_with dec1 (List.length d) (List.concat (map enc_field d) ++ rest)
  = Some (d, rest).
Proof.
  induction d as [|[k v] d IH]; intros rest H; simpl; [reflexivity|].
  inversion H as [|? ? Hx Hl]; subst. simpl in Hx.
  rewrite <- !List.app_assoc, skipn_exact, firstn_exact, Hx, IH by exact Hl.
  reflexivity.
Qed.

Lemma length_enc_item x l :
  In x l -> (List.length (enc x) <= List.length (List.concat (map enc l)))%nat.
Proof.
  induction l as [|y l IH]; simpl; [tauto|].
  rewrite length_app. intros [->|H]; [lia | specialize (IH H); lia].
Qed.

Lemma length_enc_field kv d :
  In kv d ->
  (List.length (enc (snd kv)) <= List.length (List.concat (map enc_field d)))%nat.
Proof.
  induction d as [|[k v] d IH]; simpl; [tauto|].
  rewrite !length_app. intros [<-|H]; [simpl; lia | specialize (IH H); lia].
Qed.

Lemma dec_enc fuel : forall j rest,
  (List.length (enc j) <= fuel)%nat ->
  dec fuel (enc j ++ rest) = Some (j, rest).
Proof.
  induction fuel as [|f IH]; intros j rest Hlen.
  - destruct j; simpl in Hlen; try lia. destruct n; simpl in Hlen; lia.
  - destruct j as [|b|n|bits|s|l|d].
    + reflexivity.
    + destruct b; reflexivity.
    + destruct n; reflexivity.
    + reflexivity.
    + cbn [enc dec app N.eqb Pos.eqb].
      rewrite firstn_exact, skipn_exact. reflexivity.
    + rewrite enc_list in *. cbn [dec app N.eqb Pos.eqb].
      rewrite Nat2N.id, items_with_enc; [reflexivity|].
      apply Forall_forall. intros x Hx rest'. apply IH.
      pose proof (length_enc_item x l Hx). simpl in Hlen. lia.
    + rewrite enc_dict in *. cbn [dec app N.eqb Pos.eqb].
      rewrite Nat2N.id, fields_with_enc; [reflexivity|].
      apply Forall_forall. intros kv Hkv rest'. apply IH.
      pose proof (length_enc_field kv d Hkv). simpl in Hlen. lia.
Qed.

Lemma loads_dumps j : json_loads codec (json_dumps codec j) = Some j.
Proof.
  simpl. unfold loads.
  rewrite <- (List.app_nil_r (enc j)) at 2.
  rewrite dec_enc by lia. reflexivity.
Qed.

End PrefixCodecFacts.

(* ================================================================== *)
(** * update_folder_label *)
(* ================================================================== *)

Section LabelTheorems.
Variable J : json_codec.

(** C2.  When the folders of the workspace document hold a record whose path
    is ["../boxmux"], and the records before the first such one have a path,
    [update_folder_label v] writes back the document in which the name of
    that record is ["boxmux v" + v] and nothing else differs: the other
    fields of the record, the other folders and the other top-level entries
    are the ones read. *)
Theorem update_folder_label_rewrites_name
  (v : str) (E : env) (w : world) (text : str)
  (top1 top2 : pydict) (pre post : list json) (d : pydict) :
  no_fault E workspace_file_path ->
  files w workspace_file_path = Some text ->
  json_loads J text =
    Some (JDict (top1 ++ (lit "folders", JList (pre ++ JDict d :: post)) :: top2)) ->
  ~ In (lit "folders") (map fst top1) ->
  Forall (other_folder target_path) pre ->
  has_path target_path d ->
  exists d',
    dict_updated (lit "name") (JStr (lit "boxmux v" ++ v)) d d' /\
    files (snd (update_folder_label J v E w)) workspace_file_path =
      Some (json_dumps J
              (JDict (top1 ++ (lit "folders", JList (pre ++ JDict d' :: post))
                           :: top2))).
Proof.
  intros HE Hfile Hload Htop Hpre Hd.
  exists (dict_set d (lit "name") (JStr (lit "boxmux v" ++ v))). split.
  - apply dict_set_updated.
  - rewrite update_folder_label_file by exact HE.
    unfold relabelled_file. rewrite Hfile, Hload.
    unfold label_of. rewrite relabel_found by assumption. reflexivity.
Qed.

(** C7.  When every folder of the workspace document is a record with a path
    other than ["../boxmux"], [update_folder_label v] writes back the document
    with one more folder, [{"path": "../boxmux", "name": "boxmux v" + v}],
    after the folders read, which keep their order. *)
Theorem update_folder_label_appends
  (v : str) (E : env) (w : world) (text : str)
  (top1 top2 : pydict) (folders : list json) :
  no_fault E workspace_file_path ->
  files w workspace_file_path = Some text ->
  json_loads J text = Some (JDict (top1 ++ (lit "folders", JList folders) :: top2)) ->
  ~ In (lit "folders") (map fst top1) ->
  Forall (other_folder target_path) folders ->
  files (snd (update_folder_label J v E w)) workspace_file_path =
    Some (json_dumps J
            (JDict (top1 ++
                      (lit "folders",
                       JList (folders ++
                                [JDict [(lit "path", JStr (lit "../boxmux"));
                                        (lit "name", JStr (lit "boxmux v" ++ v))]]))
                      :: top2))).
Proof.
  intros HE Hfile Hload Htop Hfs.
  rewrite update_folder_label_file by exact HE.
  unfold relabelled_file. rewrite Hfile, Hload.
  unfold label_of. rewrite relabel_not_found by assumption. reflexivity.
Qed.

Lemma relabelled_file_idempotent v content :
  (forall j, json_loads J (json_dumps J j) = Some j) ->
  relabelled_file J v (relabelled_file J v content) = relabelled_file J v content.
Proof.
  intros Hrt. destruct content as [text|]; [|reflexivity].
  cbn [relabelled_file].
  destruct (json_loads J text) as [cfg|] eqn:Hload;
    [|cbn [relabelled_file]; rewrite Hload; reflexivity].
  destruct (relabel target_path (label_of v) cfg) as [cfg'|e] eqn:Hrel;
    cbn [relabelled_file].
  - rewrite Hrt, (relabel_idempotent _ _ _ _ Hrel). reflexivity.
  - rewrite Hload, Hrel. reflexivity.
Qed.

(** C3.  With a codec that reads back what it writes, and no fault on the
    workspace file, a second [update_folder_label v] leaves the workspace file
    as the first one left it, whatever the file held at the start. *)
Theorem update_folder_label_idempotent (v : str) (E : env) (w : world) :
  (forall j, json_loads J (json_dumps J j) = Some j) ->
  no_fault E workspace_file_path ->
  files (snd (update_folder_label J v E (snd (update_folder_label J v E w))))
        workspace_file_path =
  files (snd (update_folder_label J v E w)) workspace_file_path.
Proof.
  intros Hrt HE.
  rewrite !update_folder_label_file by exact HE.
  apply relabelled_file_idempotent, Hrt.
Qed.

(** C9.  When the workspace file cannot be opened or read, or its text is not
    JSON, [update_folder_label] leaves every file as it was. *)
Theorem update_folder_label_read_failure (v : str) (E : env) (w : world) :
  open_r_fault E workspace_file_path <> None \/
  files w workspace_file_path = None \/
  read_fault E workspace_file_path <> None \/
  (exists text, files w workspace_file_path = Some text /\ json_loads J text = None) ->
  forall p, files (snd (update_folder_label J v E w)) p = files w p.
Proof.
  intros H p.
  unfold update_folder_label, update_folder_label_try, try_except, bind,
    read_text, pure, json_load, logger_exception.
  fold workspace_file_path.
  destruct (open_r_fault E workspace_file_path) as [e|] eqn:Hor.
  { destruct (is_Exception e); reflexivity. }
  destruct (files w workspace_file_path) as [text|] eqn:Hf; [|reflexivity].
  destruct (read_fault E workspace_file_path) as [e|] eqn:Hr.
  { destruct (is_Exception e); reflexivity. }
  destruct H as [H|[H|[H|(text' & H & Hload)]]]; try congruence.
  inversion H; subst text'. rewrite Hload. reflexivity.
Qed.
End LabelTheorems.

(** C2 on the sample workspace: the first folder of the target path gets
    the name, its other fields and the second such folder stay. *)
Lemma update_folder_label_rewrites_name_witness :
  exists d',
    dict_updated (lit "name") (JStr (lit "boxmux v" ++ lit "1.5.42")) boxmux_fields d' /\
    files (snd (update_folder_label PrefixCodec.codec (lit "1.5.42") sample_git
                  sample_world)) workspace_file_path =
      Some (PrefixCodec.enc
              (JDict [(lit "folders", JList [docs_folder; JDict d'; second_boxmux]);
                      (lit "settings", JDict [])])).
Proof.
  apply (update_folder_label_rewrites_name PrefixCodec.codec (lit "1.5.42")
           sample_git sample_world (PrefixCodec.enc sample_config)
           [] [(lit "settings", JDict [])] [docs_folder] [second_boxmux]
           boxmux_fields).
  - repeat split.
  - reflexivity.
  - reflexivity.
  - simpl. tauto.
  - constructor; [|constructor].
    exists [(lit "path", JStr (lit "../docs")); (lit "name", JStr (lit "docs"))],
      (JStr (lit "../docs")).
    repeat split. discriminate.
  - reflexivity.
Defined.

(** C7 on a workspace without the target path. *)
Lemma update_folder_label_appends_witness :
  files (snd (update_folder_label PrefixCodec.codec (lit "1.5.42") sample_git
                fresh_world)) workspace_file_path =
    Some (PrefixCodec.enc
            (JDict [(lit "settings", JDict []);
                    (lit "folders",
                     JList [docs_folder;
                            JDict [(lit "path", JStr (lit "../boxmux"));
                                   (lit "name", JStr (lit "boxmux v1.5.42"))]])])).
Proof.
  apply (update_folder_label_appends PrefixCodec.codec (lit "1.5.42")
           sample_git fresh_world (PrefixCodec.enc fresh_config)
           [(lit "settings", JDict [])] [] [docs_folder]).
  - repeat split.
  - reflexivity.
  - reflexivity.
  - simpl. intros [H|[]]. discriminate.
  - constructor; [|constructor].
    exists [(lit "path", JStr (lit "../docs")); (lit "name", JStr (lit "docs"))],
      (JStr (lit "../docs")).
    repeat split. discriminate.
Defined.

(** C3 with the reference codec, on the sample workspace. *)
Lemma update_folder_label_idempotent_witness :
  files (snd (update_folder_label PrefixCodec.codec (lit "1.5.42") sample_git
                (snd (update_folder_label PrefixCodec.codec (lit "1.5.42")
                        sample_git sample_world))))
        workspace_file_path =
  files (snd (update_folder_label PrefixCodec.codec (lit "1.5.42") sample_git
                sample_world)) workspace_file_path.
Proof.
  apply (update_folder_label_idempotent PrefixCodec.codec (lit "1.5.42")
           sample_git sample_world).
  - exact PrefixCodecFacts.loads_dumps.
  - repeat split.
Defined.

(** C9 without a workspace file: none is created. *)
Lemma update_folder_label_read_failure_witness :
  files (snd (update_folder_label PrefixCodec.codec (lit "1.5.42") sample_git
                (world_with None))) workspace_file_path = None.
Proof.
  apply (update_folder_label_read_failure PrefixCodec.codec (lit "1.5.42")
           sample_git (world_with None)).
  right. left. reflexivity.
Defined.

Section MalformedFolder.
Variable J : json_codec.

Lemma label_first_no_path target label pre fields post :
  Forall (other_folder target) pre ->
  dict_get fields (lit "path") = None ->
  label_first target label (pre ++ JDict fields :: post) = Raise (KeyError (lit "path")).
Proof.
  intros Hpre Hf. induction Hpre as [|f pre Hfo _ IH]; simpl.
  - rewrite Hf. reflexivity.
  - destruct (other_folder_step target f Hfo) as (p & -> & Hp). simpl.
    rewrite Hp, IH. reflexivity.
Qed.

(** A folder without a path before any folder with the target path: the
    lookup of its path raises [KeyError], the loop ends there, nothing is
    written, and the exception is logged. *)
Theorem update_folder_label_folder_without_path
  (v : str) (E : env) (w : world) (text : str)
  (top : pydict) (pre post : list json) (fields : pydict) :
  open_r_fault E workspace_file_path = None ->
  read_fault E workspace_file_path = None ->
  files w workspace_file_path = Some text ->
  json_loads J text = Some (JDict top) ->
  dict_get top (lit "folders") = Some (JList (pre ++ JDict fields :: post)) ->
  Forall (other_folder target_path) pre ->
  dict_get fields (lit "path") = None ->
  update_folder_label J v E w =
    (Ok tt,
     add_log (LogException (lit "Failed to update folder label: ")
                           (KeyError (lit "path"))) w).
Proof.
  intros Hor Hr Hfile Hload Hfo Hpre Hnone.
  unfold update_folder_label, update_folder_label_try, try_except, bind,
    read_text, pure, json_load, logger_exception.
  fold workspace_file_path. fold target_path.
  rewrite Hor, Hfile, Hr, Hload.
  unfold relabel. cbn [getitem rbind]. rewrite Hfo. cbn [py_iter rbind].
  rewrite (label_first_no_path _ _ _ _ _ Hpre Hnone). reflexivity.
Qed.
End MalformedFolder.

(** A remote folder before the folder of the target path: nothing is
    written. *)
Lemma update_folder_label_folder_without_path_witness :
  update_folder_label PrefixCodec.codec (lit "1.5.42") sample_git
    (world_with (Some (PrefixCodec.enc remote_config))) =
    (Ok tt,
     add_log (LogException (lit "Failed to update folder label: ")
                           (KeyError (lit "path")))
             (world_with (Some (PrefixCodec.enc remote_config)))).
Proof.
  apply (update_folder_label_folder_without_path PrefixCodec.codec (lit "1.5.42")
           sample_git (world_with (Some (PrefixCodec.enc remote_config)))
           (PrefixCodec.enc remote_config)
           [(lit "folders", JList [docs_folder; JDict remote_folder; JDict boxmux_fields])]
           [docs_folder] [JDict boxmux_fields] remote_folder);
    try reflexivity.
  constructor; [|constructor].
  exists [(lit "path", JStr (lit "../docs")); (lit "name", JStr (lit "docs"))],
    (JStr (lit "../docs")).
  repeat split. discriminate.
Defined.


(* ================================================================== *)
(** * update_version *)
(* ================================================================== *)

(** C8.  When the version file opens for writing and the write goes through,
    the file holds [v] and one newline after [update_version v], whatever it
    held before and whether or not the staging succeeds. *)
Theorem update_version_writes_version (v : str) (E : env) (w : world) :
  open_w_fault E version_file_path = None ->
  write_fault E version_file_path = None ->
  files (snd (update_version v E w)) version_file_path = Some (v ++ [LF]).
Proof.
  intros Ho Hw.
  unfold update_version, update_version_try, try_except, bind, logger_info,
    open_w, file_write, check_call_git_add, logger_exception.
  change (os_path_join (lit ".") (lit "version.txt")) with version_file_path.
  rewrite Ho, Hw.
  destruct (git_add_fault E) as [e|].
  - destruct (is_Exception e); reflexivity.
  - reflexivity.
Qed.

(** C10.  When opening or writing the version file raises, [git add] is not
    run and the index is the one before the call; when both succeed, [git add]
    is run once, on the version file. *)
Theorem update_version_stages_after_write (v : str) (E : env) (w : world) :
  (open_w_fault E version_file_path <> None \/
   write_fault E version_file_path <> None ->
   git_add_calls (snd (update_version v E w)) = git_add_calls w /\
   git_index (snd (update_version v E w)) = git_index w)
  /\
  (open_w_fault E version_file_path = None ->
   write_fault E version_file_path = None ->
   git_add_calls (snd (update_version v E w)) =
     git_add_calls w ++ [version_file_path]).
Proof.
  unfold update_version, update_version_try, try_except, bind, logger_info,
    open_w, file_write, check_call_git_add, logger_exception.
  change (os_path_join (lit ".") (lit "version.txt")) with version_file_path.
  split.
  - intros H.
    destruct (open_w_fault E version_file_path) as [e|].
    { destruct (is_Exception e); split; reflexivity. }
    destruct (write_fault E version_file_path) as [[n e]|].
    { destruct (is_Exception e); split; reflexivity. }
    destruct H; congruence.
  - intros -> ->.
    destruct (git_add_fault E) as [e|].
    + destruct (is_Exception e); reflexivity.
    + reflexivity.
Qed.

(** C8 for version [1.5.42], even though the staging fails. *)
Lemma update_version_writes_version_witness :
  files (snd (update_version (lit "1.5.42") no_git (world_with None)))
        version_file_path = Some (lit "1.5.42" ++ [LF]).
Proof.
  apply (update_version_writes_version (lit "1.5.42") no_git (world_with None));
    reflexivity.
Defined.

(** C10 where the version file cannot be opened for writing. *)
Lemma update_version_stages_after_write_witness :
  git_add_calls (snd (update_version (lit "1.5.42") read_only sample_world)) = [] /\
  git_index (snd (update_version (lit "1.5.42") read_only sample_world)) = [].
Proof.
  apply (proj1 (update_version_stages_after_write (lit "1.5.42") read_only
                  sample_world)).
  left. discriminate.
Defined.

(* ================================================================== *)
(** * Exceptions and the entry point *)
(* ================================================================== *)

Lemma try_except_caught {A} (body : io A) cls h E w e :
  fst (body E w) = Raise e -> cls e = true ->
  try_except body cls h E w = h e E (snd (body E w)).
Proof.
  unfold try_except. destruct (body E w) as [[a|e'] w']; simpl; [discriminate|].
  intros H; inversion H; subst. intros ->. reflexivity.
Qed.

Lemma try_except_returned {A} (body : io A) cls h E w a :
  fst (body E w) = Ok a ->
  try_except body cls h E w = (Ok a, snd (body E w)).
Proof.
  unfold try_except. destruct (body E w) as [[a'|e'] w']; simpl; [|discriminate].
  intros H; inversion H; subst. reflexivity.
Qed.





Lemma update_version_try_raises v E w e :
  faults_are_Exceptions E ->
  fst (update_version_try v E w) = Raise e -> is_Exception e = true.
Proof.
  intros (_ & _ & How & Hw & Hga).
  unfold update_version_try, bind, logger_info, open_w, file_write,
    check_call_git_add.
  change (os_path_join (lit ".") (lit "version.txt")) with version_file_path.
  destruct (open_w_fault E version_file_path) as [e1|] eqn:H1; simpl.
  { intros H; inversion H; subst. exact (How _ _ H1). }
  destruct (write_fault E version_file_path) as [[n e2]|] eqn:H2; simpl.
  { intros H; inversion H; subst. exact (Hw _ _ _ H2). }
  destruct (git_add_fault E) as [e3|] eqn:H3; simpl.
  { intros H; inversion H; subst. exact (Hga _ eq_refl). }
  discriminate.
Qed.

Section Entry.
Variable U : unicode_db.
Variable J : json_codec.


Lemma update_version_returns v E w :
  faults_are_Exceptions E -> fst (update_version v E w) = Ok tt.
Proof.
  intros HE. unfold update_version.
  destruct (fst (update_version_try v E w)) as [[]|e] eqn:Hb.
  - rewrite (try_except_returned _ _ _ _ _ _ Hb). reflexivity.
  - rewrite (try_except_caught _ _ _ _ _ _ Hb
               (update_version_try_raises _ _ _ _ HE Hb)).
    reflexivity.
Qed.





Lemma main_after_queries E w tag minor patch :
  get_tag_version E = Ok tag ->
  get_commit_count_since_tag U E tag = Ok minor ->
  get_total_changes U E = Ok patch ->
  main U J E w =
    (update_version (full_version tag minor patch) ;;
     update_folder_label J (full_version tag minor patch))%io E w.
Proof.
  intros Ht Hm Hp. unfold main, bind, query at 1 2 3.
  rewrite Ht, Hm, Hp. reflexivity.
Qed.


End Entry.




(* ================================================================== *)
(** * More on the queries *)
(* ================================================================== *)

Lemma dropwhile_app_all {A} (p : A -> bool) a b :
  forallb p a = true -> dropwhile p (a ++ b) = dropwhile p b.
Proof.
  induction a as [|x a IH]; simpl; [reflexivity|].
  intros H. apply andb_true_iff in H as [-> H]. apply IH, H.
Qed.

Lemma dropwhile_all {A} (p : A -> bool) a :
  forallb p a = true -> dropwhile p a = [].
Proof.
  intros H. rewrite <- (List.app_nil_r a), dropwhile_app_all by exact H.
  reflexivity.
Qed.

Lemma forallb_rev {A} (p : A -> bool) l : forallb p (rev l) = forallb p l.
Proof.
  induction l as [|x l IH]; simpl; [reflexivity|].
  rewrite forallb_app, IH. simpl. rewrite andb_true_r. apply andb_comm.
Qed.

(** [bytes.strip()] removes the white space around a text whose ends are not
    white space, and nothing else. *)
Lemma bytes_strip_padded ws1 t ws2 :
  forallb ascii_space ws1 = true ->
  forallb ascii_space ws2 = true ->
  starts_unspaced t -> starts_unspaced (rev t) ->
  bytes_strip (ws1 ++ t ++ ws2) = t.
Proof.
  intros H1 H2 Ht Hr. unfold bytes_strip.
  rewrite dropwhile_app_all by exact H1.
  destruct t as [|c t].
  - simpl. rewrite (dropwhile_all ascii_space ws2 H2). reflexivity.
  - change ((c :: t) ++ ws2) with (c :: (t ++ ws2)). cbn [dropwhile].
    rewrite (Ht c eq_refl).
    change (c :: (t ++ ws2)) with ((c :: t) ++ ws2).
    rewrite rev_app_distr, dropwhile_app_all by (rewrite forallb_rev; exact H2).
    rewrite dropwhile_stop; [apply rev_involutive|].
    destruct (rev (c :: t)) as [|z r] eqn:Hz; [exact I|].
    apply (Hr z). reflexivity.
Qed.

(** [get_tag_version] returns the tag that [git describe] printed, without
    the white space around it: for output made of white space, the UTF-8
    bytes of a text whose first and last bytes are not white space, and white
    space, it returns that text. *)
Theorem get_tag_version_trims (E : env) (ws1 tagb ws2 : bytes) (tag : str) :
  git_describe E = Ok (ws1 ++ tagb ++ ws2) ->
  forallb ascii_space ws1 = true ->
  forallb ascii_space ws2 = true ->
  starts_unspaced tagb -> starts_unspaced (rev tagb) ->
  utf8_decode tagb = Some tag ->
  get_tag_version E = Ok tag.
Proof.
  intros Hq H1 H2 Hs Hr Hd. unfold get_tag_version. rewrite Hq. simpl.
  unfold strip_decode. rewrite bytes_strip_padded by assumption.
  rewrite Hd. reflexivity.
Qed.

(** The sample answer [v1] and a newline gives the tag [v1]. *)
Lemma get_tag_version_trims_witness :
  get_tag_version sample_git = Ok (lit "v1").
Proof.
  apply (get_tag_version_trims sample_git [] (lit "v1") [LF] (lit "v1"));
    try reflexivity; intros b H; inversion H; reflexivity.
Defined.

Section MoreQueries.
Variable U : unicode_db.

(** When the commit-count query prints nothing but white space, [int] is
    given the empty string: its [ValueError] is not a [CalledProcessError], so
    it leaves [get_commit_count_since_tag] instead of the default 0. *)
Theorem get_commit_count_blank_output (E : env) (tag : str) (out : bytes) :
  git_rev_list_count E (commit_range tag) = Ok out ->
  forallb ascii_space out = true ->
  get_commit_count_since_tag U E tag = Raise ValueError.
Proof.
  intros Hq Hws. rewrite get_commit_count_range, Hq. simpl.
  unfold strip_decode.
  assert (Hs : bytes_strip out = []).
  { assert (Hnil : starts_unspaced []) by (intros b H; discriminate).
    pose proof (bytes_strip_padded out [] [] Hws eq_refl Hnil Hnil) as Hs.
    cbn [app] in Hs. rewrite List.app_nil_r in Hs. exact Hs. }
  rewrite Hs. reflexivity.
Qed.



End MoreQueries.

(** The commit-count query prints an empty line. *)
Lemma get_commit_count_blank_output_witness :
  get_commit_count_since_tag ascii_db blank_count_git (lit "v1") = Raise ValueError.
Proof.
  apply (get_commit_count_blank_output ascii_db blank_count_git (lit "v1") [LF]);
    reflexivity.
Defined.



(* ================================================================== *)
(** * More on update_version *)
(* ================================================================== *)

(** When nothing fails, [update_version v] returns with [v] and a newline in
    the version file, the same text staged for that path on top of the index,
    and one more record in the log, the information line. *)
Theorem update_version_stages_what_it_wrote (v : str) (E : env) (w : world) :
  open_w_fault E version_file_path = None ->
  write_fault E version_file_path = None ->
  git_add_fault E = None ->
  fst (update_version v E w) = Ok tt /\
  files (snd (update_version v E w)) version_file_path = Some (v ++ [LF]) /\
  git_index (snd (update_version v E w)) =
    (version_file_path, v ++ [LF]) :: git_index w /\
  log (snd (update_version v E w)) =
    log w ++ [LogInfo (lit "Writing version to: " ++ version_file_path)].
Proof.
  intros Ho Hw Hg.
  unfold update_version, update_version_try, try_except, bind, logger_info,
    open_w, file_write, check_call_git_add, logger_exception.
  change (os_path_join (lit ".") (lit "version.txt")) with version_file_path.
  rewrite Ho, Hw, Hg. repeat split.
Qed.


(** The version file is not written atomically: once it was opened for
    writing its former content is gone, and when the write then fails the
    file keeps only the part of the new text that reached it. *)
Theorem update_version_failed_write (v : str) (E : env) (w : world)
  (n : nat) (e : exn) :
  open_w_fault E version_file_path = None ->
  write_fault E version_file_path = Some (n, e) ->
  files (snd (update_version v E w)) version_file_path =
    Some (firstn n (v ++ [LF])).
Proof.
  intros Ho Hw.
  unfold update_version, update_version_try, try_except, bind, logger_info,
    open_w, file_write, check_call_git_add, logger_exception.
  change (os_path_join (lit ".") (lit "version.txt")) with version_file_path.
  rewrite Ho, Hw. destruct (is_Exception e); reflexivity.
Qed.

(** The index after a run without faults on an empty index. *)
Lemma update_version_stages_what_it_wrote_witness :
  git_index (snd (update_version (lit "1.5.42") sample_git sample_world)) =
    [(version_file_path, lit "1.5.42" ++ [LF])].
Proof.
  apply (update_version_stages_what_it_wrote (lit "1.5.42") sample_git sample_world);
    reflexivity.
Defined.


(** The disk fills up: a version file that held [0.0.1] is left empty. *)
Lemma update_version_failed_write_witness :
  files (snd (update_version (lit "1.5.42") disk_full old_version_world))
        version_file_path = Some [].
Proof.
  apply (update_version_failed_write (lit "1.5.42") disk_full old_version_world
           O OSError); reflexivity.
Defined.

(* ================================================================== *)
(** * More on update_folder_label *)
(* ================================================================== *)

Section RelabelShape.
Variables target label : str.

(** A change that succeeds was made to a document of the expected shape. *)
Lemma relabel_inv cfg cfg' :
  relabel target label cfg = Ok cfg' ->
  exists top1 top2 folders,
    cfg = JDict (top1 ++ (lit "folders", JList folders) :: top2) /\
    ~ In (lit "folders") (map fst top1) /\
    ((exists pre d post,
         folders = pre ++ JDict d :: post /\
         Forall (other_folder target) pre /\
         has_path target d /\
         cfg' = JDict (top1 ++
                         (lit "folders",
                          JList (pre ++ JDict (dict_set d (lit "name") (JStr label))
                                     :: post)) :: top2)) \/
     (Forall (other_folder target) folders /\
      cfg' = JDict (top1 ++
                      (lit "folders",
                       JList (folders ++
                                [JDict [(lit "path", JStr target);
                                        (lit "name", JStr label)]])) :: top2))).
Proof.
  unfold relabel. intros H.
  destruct cfg as [| | | | | |top]; simpl in H; try discriminate.
  destruct (dict_get top (lit "folders")) as [fo|] eqn:Hfo; simpl in H;
    [|discriminate].
  destruct (dict_get_split top _ fo Hfo) as (top1 & top2 & -> & Htop).
  destruct (py_iter fo) as [items|e] eqn:Hit; simpl in H; [|discriminate].
  destruct (label_first target label items) as [r|e] eqn:Hl; simpl in H;
    [|discriminate].
  pose proof (label_first_inv target label items r Hl) as Hinv.
  destruct r as [items'|].
  - destruct Hinv as (pre & d & post & Hitems & Hpre & Hd & Hitems').
    pose proof (found_in_list fo items pre d post Hit Hitems) as ->.
    simpl in H. rewrite dict_set_app_hit in H by exact Htop.
    inversion H; subst cfg'. clear H.
    exists top1, top2, items. split; [reflexivity|]. split; [exact Htop|].
    left. exists pre, d, post. subst items'. repeat split; assumption.
  - destruct fo; simpl in H; try discriminate.
    simpl in Hit. inversion Hit; subst items0.
    rewrite dict_set_app_hit in H by exact Htop.
    inversion H; subst cfg'. clear H.
    exists top1, top2, items. split; [reflexivity|]. split; [exact Htop|].
    right. split; [exact Hinv | reflexivity].
Qed.

(** Whatever the document was, after a change that succeeded the first
    folder with the target path carries the label. *)
Theorem relabel_leaves_label cfg cfg' :
  relabel target label cfg = Ok cfg' ->
  exists top1 top2 pre d post,
    cfg' = JDict (top1 ++ (lit "folders", JList (pre ++ JDict d :: post)) :: top2) /\
    ~ In (lit "folders") (map fst top1) /\
    Forall (other_folder target) pre /\
    labelled target label d.
Proof.
  intros H.
  destruct (relabel_inv cfg cfg' H)
    as (top1 & top2 & folders & _ & Htop &
        [(pre & d & post & _ & Hpre & Hd & ->) | (Hfs & ->)]).
  - exists top1, top2, pre, (dict_set d (lit "name") (JStr label)), post.
    repeat split; try assumption.
    + apply has_path_after_name, Hd.
    + apply dict_get_set_same.
  - exists top1, top2, folders,
      [(lit "path", JStr target); (lit "name", JStr label)], [].
    repeat split; assumption.
Qed.

(** When the value of [folders] is not a list the change fails: at the
    first key or character for a non-empty object or string, at [append] for
    an empty one, at the loop for anything else. *)
Lemma relabel_folders_not_list top fo :
  dict_get top (lit "folders") = Some fo ->
  (forall l, fo <> JList l) ->
  relabel target label (JDict top) =
    Raise (match fo with
           | JDict [] | JStr [] => AttributeError
           | _ => TypeError
           end).
Proof.
  intros Hfo Hnl. unfold relabel. simpl. rewrite Hfo. simpl.
  destruct fo as [| | | |s|l|d]; try reflexivity.
  - destruct s; reflexivity.
  - destruct (Hnl l eq_refl).
  - destruct d as [|[k x] d]; reflexivity.
Qed.
End RelabelShape.

Section MoreLabel.
Variable J : json_codec.

(** [update_folder_label] stages nothing and changes no file but the
    workspace file, whatever fails. *)
Theorem update_folder_label_touches_only_workspace (v : str) (E : env) (w : world) :
  git_index (snd (update_folder_label J v E w)) = git_index w /\
  git_add_calls (snd (update_folder_label J v E w)) = git_add_calls w /\
  (forall p, p <> workspace_file_path ->
             files (snd (update_folder_label J v E w)) p = files w p).
Proof.
  unfold update_folder_label, update_folder_label_try, try_except, bind,
    read_text, pure, json_load, open_w, file_write, logger_exception.
  fold workspace_file_path.
  assert (Hneq : forall p, p <> workspace_file_path ->
                           str_eqb p workspace_file_path = false)
    by (intros p Hp; apply str_eqb_neq, Hp).
  destruct (open_r_fault E workspace_file_path) as [e|].
  { destruct (is_Exception e); repeat split. }
  destruct (files w workspace_file_path) as [text|]; [|repeat split].
  destruct (read_fault E workspace_file_path) as [e|].
  { destruct (is_Exception e); repeat split. }
  destruct (json_loads J text) as [cfg|]; [|repeat split].
  destruct (relabel _ _ cfg) as [cfg'|e].
  2:{ destruct (is_Exception e); repeat split. }
  destruct (open_w_fault E workspace_file_path) as [e|].
  { destruct (is_Exception e); repeat split. }
  destruct (write_fault E workspace_file_path) as [[n e]|].
  - destruct (is_Exception e); repeat split; intros p Hp; simpl;
      rewrite (Hneq p Hp); reflexivity.
  - repeat split. intros p Hp. simpl. rewrite (Hneq p Hp). reflexivity.
Qed.

(** The workspace file is not written atomically either: when the document
    was read and changed and the file was opened for writing, a write that
    fails leaves in the file only the part of the new text that reached it. *)
Theorem update_folder_label_failed_write
  (v : str) (E : env) (w : world) (text : str) (cfg cfg' : json)
  (n : nat) (e : exn) :
  open_r_fault E workspace_file_path = None ->
  read_fault E workspace_file_path = None ->
  files w workspace_file_path = Some text ->
  json_loads J text = Some cfg ->
  relabel target_path (lit "boxmux v" ++ v) cfg = Ok cfg' ->
  open_w_fault E workspace_file_path = None ->
  write_fault E workspace_file_path = Some (n, e) ->
  files (snd (update_folder_label J v E w)) workspace_file_path =
    Some (firstn n (json_dumps J cfg')).
Proof.
  intros Hor Hr Hf Hload Hrel Ho Hw.
  unfold update_folder_label, update_folder_label_try, try_except, bind,
    read_text, pure, json_load, open_w, file_write, logger_exception.
  fold workspace_file_path. fold target_path.
  rewrite Hor, Hf, Hr, Hload, Hrel, Ho, Hw.
  destruct (is_Exception e); reflexivity.
Qed.

(** The workspace file changes only when its text is a JSON object whose
    [folders] are a list that holds a record with the target path after
    records with another path, or only records with another path. *)
Theorem update_folder_label_changes_only (v : str) (E : env) (w : world) (text : str) :
  no_fault E workspace_file_path ->
  files w workspace_file_path = Some text ->
  files (snd (update_folder_label J v E w)) workspace_file_path <> Some text ->
  exists top1 top2 folders,
    json_loads J text =
      Some (JDict (top1 ++ (lit "folders", JList folders) :: top2)) /\
    ~ In (lit "folders") (map fst top1) /\
    scannable target_path folders.
Proof.
  intros HE Hf. rewrite update_folder_label_file by exact HE.
  unfold relabelled_file. rewrite Hf.
  destruct (json_loads J text) as [cfg|]; [|congruence].
  destruct (relabel target_path (label_of v) cfg) as [cfg'|e] eqn:Hrel;
    [|congruence].
  intros _.
  destruct (relabel_inv _ _ cfg cfg' Hrel)
    as (top1 & top2 & folders & -> & Htop & Hshape).
  exists top1, top2, folders. split; [reflexivity|]. split; [exact Htop|].
  destruct Hshape as [(pre & d & post & Hfs & Hpre & Hd & _) | (Hfs & _)].
  - left. exists pre, d, post. repeat split; assumption.
  - right. exact Hfs.
Qed.

(** A document that is not an object, or an object without [folders]: the
    lookup raises [TypeError] or [KeyError], which is caught and logged, and
    no file is written. *)
Theorem update_folder_label_without_folders
  (v : str) (E : env) (w : world) (text : str) (cfg : json) :
  open_r_fault E workspace_file_path = None ->
  read_fault E workspace_file_path = None ->
  files w workspace_file_path = Some text ->
  json_loads J text = Some cfg ->
  lacks_folders cfg ->
  update_folder_label J v E w =
    (Ok tt,
     add_log (LogException (lit "Failed to update folder label: ")
                (match cfg with
                 | JDict _ => KeyError (lit "folders")
                 | _ => TypeError
                 end)) w).
Proof.
  intros Hor Hr Hf Hload Hlack.
  unfold update_folder_label, update_folder_label_try, try_except, bind,
    read_text, pure, json_load, logger_exception.
  fold workspace_file_path. fold target_path.
  rewrite Hor, Hf, Hr, Hload. unfold relabel.
  destruct cfg as [| | | | | |top]; try reflexivity.
  simpl in Hlack. simpl. rewrite Hlack. reflexivity.
Qed.

(** When [folders] is not a list the document is not written: an object or
    a string stops the loop at its first key or character with [TypeError],
    or stops [append] with [AttributeError] when it is empty; any other value
    cannot be looped over.  The exception is caught and logged. *)
Theorem update_folder_label_folders_not_list
  (v : str) (E : env) (w : world) (text : str) (top : pydict) (fo : json) :
  open_r_fault E workspace_file_path = None ->
  read_fault E workspace_file_path = None ->
  files w workspace_file_path = Some text ->
  json_loads J text = Some (JDict top) ->
  dict_get top (lit "folders") = Some fo ->
  (forall l, fo <> JList l) ->
  update_folder_label J v E w =
    (Ok tt,
     add_log (LogException (lit "Failed to update folder label: ")
                (match fo with
                 | JDict [] | JStr [] => AttributeError
                 | _ => TypeError
                 end)) w).
Proof.
  intros Hor Hr Hf Hload Hfo Hnl.
  unfold update_folder_label, update_folder_label_try, try_except, bind,
    read_text, pure, json_load, logger_exception.
  fold workspace_file_path. fold target_path.
  rewrite Hor, Hf, Hr, Hload.
  rewrite (relabel_folders_not_list _ _ top fo Hfo Hnl).
  destruct fo as [| | | |s|l|d]; try reflexivity.
  - destruct s; reflexivity.
  - destruct d; reflexivity.
Qed.
End MoreLabel.

(** After the change the sample workspace has the label on its first folder
    of the target path. *)
Lemma relabel_leaves_label_witness :
  exists top1 top2 pre d post,
    JDict [(lit "folders",
            JList [docs_folder;
                   JDict (dict_set boxmux_fields (lit "name")
                            (JStr (lit "boxmux v1.5.42")));
                   second_boxmux]);
           (lit "settings", JDict [])] =
      JDict (top1 ++ (lit "folders", JList (pre ++ JDict d :: post)) :: top2) /\
    ~ In (lit "folders") (map fst top1) /\
    Forall (other_folder target_path) pre /\
    labelled target_path (lit "boxmux v1.5.42") d.
Proof.
  apply (relabel_leaves_label target_path (lit "boxmux v1.5.42") sample_config).
  reflexivity.
Defined.

(** The disk fills up while the sample workspace is written back: the file is
    left empty. *)
Lemma update_folder_label_failed_write_witness :
  files (snd (update_folder_label PrefixCodec.codec (lit "1.5.42") disk_full
                sample_world)) workspace_file_path = Some [].
Proof.
  apply (update_folder_label_failed_write PrefixCodec.codec (lit "1.5.42")
           disk_full sample_world (PrefixCodec.enc sample_config) sample_config
           (JDict [(lit "folders",
                    JList [docs_folder;
                           JDict (dict_set boxmux_fields (lit "name")
                                    (JStr (lit "boxmux v1.5.42")));
                           second_boxmux]);
                   (lit "settings", JDict [])])
           O OSError); reflexivity.
Defined.

(** The sample workspace changes, and has the expected shape. *)
Lemma update_folder_label_changes_only_witness :
  exists top1 top2 folders,
    json_loads PrefixCodec.codec (PrefixCodec.enc sample_config) =
      Some (JDict (top1 ++ (lit "folders", JList folders) :: top2)) /\
    ~ In (lit "folders") (map fst top1) /\
    scannable target_path folders.
Proof.
  apply (update_folder_label_changes_only PrefixCodec.codec (lit "1.5.42")
           sample_git sample_world (PrefixCodec.enc sample_config)).
  - repeat split.
  - reflexivity.
  - intros H. vm_compute in H. discriminate.
Defined.

(** A workspace document without folders is left as it is. *)
Lemma update_folder_label_without_folders_witness :
  update_folder_label PrefixCodec.codec (lit "1.5.42") sample_git
    (world_with (Some (PrefixCodec.enc bare_config))) =
    (Ok tt,
     add_log (LogException (lit "Failed to update folder label: ")
                           (KeyError (lit "folders")))
             (world_with (Some (PrefixCodec.enc bare_config)))).
Proof.
  apply (update_folder_label_without_folders PrefixCodec.codec (lit "1.5.42")
           sample_git (world_with (Some (PrefixCodec.enc bare_config)))
           (PrefixCodec.enc bare_config) bare_config); reflexivity.
Defined.

(** Folders given as an object are left as they are. *)
Lemma update_folder_label_folders_not_list_witness :
  update_folder_label PrefixCodec.codec (lit "1.5.42") sample_git
    (world_with (Some (PrefixCodec.enc keyed_config))) =
    (Ok tt,
     add_log (LogException (lit "Failed to update folder label: ") TypeError)
             (world_with (Some (PrefixCodec.enc keyed_config)))).
Proof.
  apply (update_folder_label_folders_not_list PrefixCodec.codec (lit "1.5.42")
           sample_git (world_with (Some (PrefixCodec.enc keyed_config)))
           (PrefixCodec.enc keyed_config)
           [(lit "folders", JDict [(lit "boxmux", JStr (lit "../boxmux"))])]
           (JDict [(lit "boxmux", JStr (lit "../boxmux"))]));
    try reflexivity.
  discriminate.
Defined.

(* ================================================================== *)
(** * More on the entry point and the version string *)
(* ================================================================== *)

Lemma app_dot_unique (a a' b b' : str) :
  ~ In 46%N a -> ~ In 46%N a' ->
  a ++ 46%N :: b = a' ++ 46%N :: b' -> a = a' /\ b = b'.
Proof.
  revert a'. induction a as [|x a IH]; intros [|y a'] Ha Ha' H; simpl in *.
  - inversion H. auto.
  - inversion H; subst. tauto.
  - inversion H; subst. tauto.
  - inversion H; subst. destruct (IH a') as [-> ->]; auto.
Qed.

Lemma app_dot_unique_r (a a' b b' : str) :
  ~ In 46%N b -> ~ In 46%N b' ->
  a ++ 46%N :: b = a' ++ 46%N :: b' -> a = a' /\ b = b'.
Proof.
  intros Hb Hb' H. apply (f_equal (@rev char)) in H.
  rewrite !rev_app_distr in H. simpl in H. rewrite <- !app_assoc in H. simpl in H.
  destruct (app_dot_unique (rev b) (rev b') (rev a) (rev a')) as [H1 H2].
  - rewrite <- in_rev. exact Hb.
  - rewrite <- in_rev. exact Hb'.
  - exact H.
  - split; apply rev_inj; assumption.
Qed.

Lemma uint_digits_no_dot d : ~ In 46%N (uint_digits d).
Proof.
  intros H. pose proof (uint_digits_ascii d) as Hd.
  rewrite Forall_forall in Hd. specialize (Hd _ H). discriminate.
Qed.

Lemma str_of_int_no_dot n : ~ In 46%N (str_of_int n).
Proof.
  destruct n as [|p|p]; cbn [str_of_int].
  - simpl. intros [H|[]]. discriminate.
  - apply uint_digits_no_dot.
  - intros [H|H]; [discriminate | exact (uint_digits_no_dot _ H)].
Qed.

Lemma str_of_int_inj m n : str_of_int m = str_of_int n -> m = n.
Proof.
  intros H. pose proof (py_int_str_of_int ascii_db m) as Hm.
  rewrite H, py_int_str_of_int in Hm. inversion Hm. reflexivity.
Qed.

(** The version string tells its three parts: two versions are equal only
    when the tags agree after their first character and the commit counts
    and the totals of changes are equal. *)
Theorem full_version_injective (tag tag' : str) (minor minor' patch patch' : Z) :
  full_version tag minor patch = full_version tag' minor' patch' ->
  skipn 1 tag = skipn 1 tag' /\ minor = minor' /\ patch = patch'.
Proof.
  assert (Hform : forall T M P : str,
             T ++ lit "." ++ M ++ lit "." ++ P = (T ++ 46%N :: M) ++ 46%N :: P)
    by (intros; rewrite <- app_assoc; reflexivity).
  unfold full_version. rewrite !Hform. intros H.
  apply app_dot_unique_r in H; try apply str_of_int_no_dot.
  destruct H as [H Hp].
  apply app_dot_unique_r in H; try apply str_of_int_no_dot.
  destruct H as [Ht Hm].
  repeat split; [exact Ht | apply str_of_int_inj, Hm | apply str_of_int_inj, Hp].
Qed.

(** The tags [v1] and [x1] give the same version, and agree after their
    first character. *)
Lemma full_version_injective_witness :
  skipn 1 (lit "v1") = skipn 1 (lit "x1") /\ 5%Z = 5%Z /\ 42%Z = 42%Z.
Proof.
  apply (full_version_injective (lit "v1") (lit "x1") 5 5 42 42). reflexivity.
Defined.

Lemma update_version_keeps_workspace v E w :
  files (snd (update_version v E w)) workspace_file_path =
  files w workspace_file_path.
Proof.
  unfold update_version, update_version_try, try_except, bind, logger_info,
    open_w, file_write, check_call_git_add, logger_exception.
  change (os_path_join (lit ".") (lit "version.txt")) with version_file_path.
  destruct (open_w_fault E version_file_path) as [e|].
  { destruct (is_Exception e); reflexivity. }
  destruct (write_fault E version_file_path) as [[n e]|].
  { destruct (is_Exception e); reflexivity. }
  destruct (git_add_fault E) as [e|].
  - destruct (is_Exception e); reflexivity.
  - reflexivity.
Qed.

Lemma update_version_file_written v E w :
  open_w_fault E version_file_path = None ->
  write_fault E version_file_path = None ->
  files (snd (update_version v E w)) version_file_path = Some (v ++ [LF]).
Proof.
  intros Ho Hw.
  unfold update_version, update_version_try, try_except, bind, logger_info,
    open_w, file_write, check_call_git_add, logger_exception.
  change (os_path_join (lit ".") (lit "version.txt")) with version_file_path.
  rewrite Ho, Hw.
  destruct (git_add_fault E) as [e|]; [destruct (is_Exception e)|]; reflexivity.
Qed.

Section MoreEntry.
Variable U : unicode_db.
Variable J : json_codec.

Lemma update_folder_label_keeps_version v E w :
  files (snd (update_folder_label J v E w)) version_file_path =
  files w version_file_path.
Proof.
  unfold update_folder_label, update_folder_label_try, try_except, bind,
    read_text, pure, json_load, open_w, file_write, logger_exception.
  fold workspace_file_path.
  destruct (open_r_fault E workspace_file_path) as [e|].
  { destruct (is_Exception e); reflexivity. }
  destruct (files w workspace_file_path) as [text|]; [|reflexivity].
  destruct (read_fault E workspace_file_path) as [e|].
  { destruct (is_Exception e); reflexivity. }
  destruct (json_loads J text) as [cfg|]; [|reflexivity].
  destruct (relabel _ _ cfg) as [cfg'|e].
  2:{ destruct (is_Exception e); reflexivity. }
  destruct (open_w_fault E workspace_file_path) as [e|].
  { destruct (is_Exception e); reflexivity. }
  destruct (write_fault E workspace_file_path) as [[n e]|].
  - destruct (is_Exception e); reflexivity.
  - reflexivity.
Qed.

(** When the version derivation raises, the entry point stops there: the
    exception leaves it, no file is written, nothing is staged and nothing is
    logged. *)
Theorem main_stops_when_a_query_raises (E : env) (w : world) (e : exn) :
  get_tag_version E = Raise e \/
  (exists tag, get_tag_version E = Ok tag /\
               get_commit_count_since_tag U E tag = Raise e) \/
  (exists tag minor, get_tag_version E = Ok tag /\
                     get_commit_count_since_tag U E tag = Ok minor /\
                     get_total_changes U E = Raise e) ->
  main U J E w = (Raise e, w).
Proof.
  unfold main, bind, query.
  intros [H|[(tag & Ht & H)|(tag & minor & Ht & Hm & H)]].
  - rewrite H. reflexivity.
  - rewrite Ht, H. reflexivity.
  - rewrite Ht, Hm, H. reflexivity.
Qed.



(** A repository where the three queries exit with a non-zero status gets
    version [0.0.0]: the fallback tag [v0] without its first character, and
    the two default counts. *)
Theorem main_writes_fallback_version (E : env) (w : world) (rc1 rc2 rc3 : Z) :
  git_describe E = Raise (CalledProcessError rc1) ->
  git_rev_list_count E (lit "HEAD") = Raise (CalledProcessError rc2) ->
  git_log_numstat E = Raise (CalledProcessError rc3) ->
  open_w_fault E version_file_path = None ->
  write_fault E version_file_path = None ->
  faults_are_Exceptions E ->
  files (snd (main U J E w)) version_file_path = Some (lit "0.0.0" ++ [LF]).
Proof.
  intros Hd Hc Hl Ho Hw HE.
  assert (Ht : get_tag_version E = Ok (lit "v0"))
    by (unfold get_tag_version; rewrite Hd; reflexivity).
  assert (Hm : get_commit_count_since_tag U E (lit "v0") = Ok 0%Z)
    by (unfold get_commit_count_since_tag; cbn [str_eqb lit]; simpl;
        rewrite Hc; reflexivity).
  assert (Hp : get_total_changes U E = Ok 0%Z)
    by (unfold get_total_changes; rewrite Hl; reflexivity).
  rewrite (main_after_queries U J E w _ _ _ Ht Hm Hp). unfold bind.
  pose proof (update_version_returns (full_version (lit "v0") 0 0) E w HE) as Hv.
  pose proof (update_version_file_written (full_version (lit "v0") 0 0) E w Ho Hw) as Hf.
  destruct (update_version (full_version (lit "v0") 0 0) E w) as [r w1].
  simpl in Hv, Hf. subst r.
  rewrite update_folder_label_keeps_version. exact Hf.
Qed.
End MoreEntry.

(** Without a git executable nothing is written. *)
Lemma main_stops_when_a_query_raises_witness :
  main ascii_db PrefixCodec.codec no_git sample_world =
    (Raise FileNotFoundError, sample_world).
Proof.
  apply (main_stops_when_a_query_raises ascii_db PrefixCodec.codec no_git
           sample_world FileNotFoundError).
  left. reflexivity.
Defined.


(** Every query fails, and so does the staging: the version file holds
    [0.0.0]. *)
Lemma main_writes_fallback_version_witness :
  files (snd (main ascii_db PrefixCodec.codec failing_git sample_world))
        version_file_path = Some (lit "0.0.0" ++ [LF]).
Proof.
  apply (main_writes_fallback_version ascii_db PrefixCodec.codec failing_git
           sample_world 128 128 128); try reflexivity.
  repeat split; try discriminate.
  intros e H; inversion H; reflexivity.
Defined.

(* ================================================================== *)
(** * Runs of the entry point *)
(* ================================================================== *)

Section Runs.
Variable U : unicode_db.
Variable J : json_codec.

(** A tag that is named [v0] is taken for the fallback: when
    [git describe] prints [v0] the entry point does what it does when
    [git describe] fails with a non-zero exit status, the commit count over
    the whole history included. *)
Theorem main_takes_tag_v0_for_no_tag (E : env) (w : world) (out : bytes) (rc : Z) :
  git_describe E = Ok out ->
  strip_decode out = Ok (lit "v0") ->
  main U J E w = main U J (with_describe (Raise (CalledProcessError rc)) E) w.
Proof.
  intros Hq Hd.
  assert (Ht : get_tag_version E = Ok (lit "v0"))
    by (unfold get_tag_version; rewrite Hq; simpl; rewrite Hd; reflexivity).
  unfold main, bind, query. rewrite Ht. reflexivity.
Qed.

(** A second run of the entry point with the same answers of git changes
    neither the version file nor the workspace file, when the operations on
    both files go through and the codec reads back what it writes. *)
Theorem main_twice (E : env) (w : world) (tag : str) (minor patch : Z) :
  get_tag_version E = Ok tag ->
  get_commit_count_since_tag U E tag = Ok minor ->
  get_total_changes U E = Ok patch ->
  faults_are_Exceptions E ->
  no_fault E version_file_path ->
  no_fault E workspace_file_path ->
  (forall j, json_loads J (json_dumps J j) = Some j) ->
  files (snd (main U J E (snd (main U J E w)))) version_file_path =
    files (snd (main U J E w)) version_file_path /\
  files (snd (main U J E (snd (main U J E w)))) workspace_file_path =
    files (snd (main U J E w)) workspace_file_path.
Proof.
  intros Ht Hm Hp HE (_ & _ & Hvo & Hvw) Hws Hrt.
  set (v := full_version tag minor patch).
  assert (Hrun : forall w0,
             files (snd (main U J E w0)) version_file_path = Some (v ++ [LF]) /\
             files (snd (main U J E w0)) workspace_file_path =
               relabelled_file J v (files w0 workspace_file_path)).
  { intros w0.
    rewrite (main_after_queries U J E w0 tag minor patch Ht Hm Hp). fold v.
    unfold bind.
    pose proof (update_version_returns v E w0 HE) as Hr.
    pose proof (update_version_file_written v E w0 Hvo Hvw) as Hf.
    pose proof (update_version_keeps_workspace v E w0) as Hk.
    destruct (update_version v E w0) as [r w1]. simpl in Hr, Hf, Hk. subst r.
    rewrite update_folder_label_keeps_version,
      update_folder_label_file by exact Hws.
    rewrite Hk. split; [exact Hf | reflexivity]. }
  destruct (Hrun w) as [Hv1 Hw1].
  destruct (Hrun (snd (main U J E w))) as [Hv2 Hw2].
  split; [congruence|].
  rewrite Hw2, Hw1. apply relabelled_file_idempotent, Hrt.
Qed.
End Runs.

(** On the sample answers with a first line [v0]. *)
Lemma main_takes_tag_v0_for_no_tag_witness :
  main ascii_db PrefixCodec.codec
       (with_describe (Ok (lit "v0" ++ [LF])) sample_git) sample_world =
  main ascii_db PrefixCodec.codec
       (with_describe (Raise (CalledProcessError 128))
          (with_describe (Ok (lit "v0" ++ [LF])) sample_git)) sample_world.
Proof.
  apply (main_takes_tag_v0_for_no_tag ascii_db PrefixCodec.codec
           (with_describe (Ok (lit "v0" ++ [LF])) sample_git) sample_world
           (lit "v0" ++ [LF]) 128); reflexivity.
Defined.

(** Two runs on the sample answers and the sample workspace. *)
Lemma main_twice_witness :
  files (snd (main ascii_db PrefixCodec.codec sample_git
                (snd (main ascii_db PrefixCodec.codec sample_git sample_world))))
        version_file_path =
    files (snd (main ascii_db PrefixCodec.codec sample_git sample_world))
          version_file_path /\
  files (snd (main ascii_db PrefixCodec.codec sample_git
                (snd (main ascii_db PrefixCodec.codec sample_git sample_world))))
        workspace_file_path =
    files (snd (main ascii_db PrefixCodec.codec sample_git sample_world))
          workspace_file_path.
Proof.
  apply (main_twice ascii_db PrefixCodec.codec sample_git sample_world
           (lit "v1") 5%Z 42%Z); try reflexivity.
  - repeat split; discriminate.
  - repeat split.
  - repeat split.
  - exact PrefixCodecFacts.loads_dumps.
Defined.
